(** * PetShopForest: order placement, inventory, notification and settings

    A shallow embedding of the server core of the repository:
    - [server/storage.ts] (class [MemStorage]): the in-memory stores;
    - [server/routes.ts]: the request handlers and the WebSocket fan-out;
    - [shared/schema.ts]: the entity types and the request schemas.

    Conventions of the embedding.
    - A JS [number] is an integer of [Z] (the entities hold integer prices,
      stocks and quantities); sums, differences and products are rounded
      as the double-precision arithmetic of JS rounds them ([Js.round]).
      Fractions and infinities are outside the model of the store; the
      stock shown in the product modal is a rational ([Q]). A [Date] is
      its millisecond timestamp in [Z].
    - A JS string is a [string]; a character is one code unit below 256.
    - [randomUUID()] and [new Date()] are inputs of the operation that calls
      them ([uuid], [now]).
    - A [Map<string, T>] is a [gmap string T]. Product objects are mutated in
      place and read through references held by the order handler, so the
      product map holds locations into a heap of Product objects.
    - A handler is a function from the server state to the new state and the
      HTTP response; [try]/[catch] is a match on a sum. *)

From Stdlib Require Import ZArith QArith Ascii String List Bool.
From stdpp Require Import gmap strings list fin_maps sorting.

Local Open Scope string_scope.
Local Open Scope Z_scope.

(* ===================================================================== *)
(** ** JavaScript string operations used by the slug derivation          *)
(* ===================================================================== *)

Module Js.

(** Code unit of a character. *)
Definition charCode (c : ascii) : N := N_of_ascii c.

(** [String.prototype.toLowerCase] on one code unit below 256: the
    letters A-Z and the Latin-1 capitals U+00C0..U+00DE (U+00D7, the
    multiplication sign, apart) move up by 32; all the others stay. *)
Definition toLowerCaseChar (c : ascii) : ascii :=
  let n := charCode c in
  if ((65 <=? n) && (n <=? 90))%N
     || ((192 <=? n) && (n <=? 222) && negb (n =? 215))%N
  then ascii_of_N (n + 32)
  else c.

Fixpoint toLowerCase (s : string) : string :=
  match s with
  | EmptyString => EmptyString
  | String c rest => String (toLowerCaseChar c) (toLowerCase rest)
  end.

(** The class [\s] below 256: TAB, LF, VT, FF, CR, SPACE and NBSP. *)
Definition isWhiteSpace (c : ascii) : bool :=
  let n := charCode c in
  ((9 <=? n) && (n <=? 13) || (n =? 32) || (n =? 160))%N.

(** [s.replace(/\s+/g, '-')]: every maximal run of white space becomes
    one hyphen. [inRun] tells that the previous character was white
    space, so that the hyphen of the current run is already out. *)
Fixpoint replaceRuns (inRun : bool) (s : string) : string :=
  match s with
  | EmptyString => EmptyString
  | String c rest =>
      if isWhiteSpace c
      then if inRun then replaceRuns true rest
           else String "-" (replaceRuns true rest)
      else String c (replaceRuns false rest)
  end.

Definition replaceWhiteSpace (s : string) : string := replaceRuns false s.

(** The class [[a-z0-9-]]. *)
Definition isSlugChar (c : ascii) : bool :=
  let n := charCode c in
  ((97 <=? n) && (n <=? 122) || (48 <=? n) && (n <=? 57) || (n =? 45))%N.

(** [s.replace(/[^a-z0-9-]/g, '')]. *)
Fixpoint stripNonSlug (s : string) : string :=
  match s with
  | EmptyString => EmptyString
  | String c rest =>
      if isSlugChar c then String c (stripNonSlug rest)
      else stripNonSlug rest
  end.

(** Every character of [s] is in [[a-z0-9-]]. *)
Fixpoint allSlugChars (s : string) : bool :=
  match s with
  | EmptyString => true
  | String c rest => isSlugChar c && allSlugChars rest
  end.

(** *** Arithmetic on numbers

    The double nearest to the integer [z]: an integer below 2^53 in
    magnitude is a double; a larger one keeps its 53 leading bits and is
    rounded to the nearest multiple of the power of two below them, to the
    even one on a tie. (Beyond the largest double, about 1.8e308, JS gives
    [Infinity]; this is outside the model.) *)
Definition round (z : Z) : Z :=
  let a := Z.abs z in
  if a <? 2 ^ 53 then z
  else
    let e := Z.log2 a - 52 in
    let q := a / 2 ^ e in
    let r := a mod 2 ^ e in
    let half := 2 ^ (e - 1) in
    let q' :=
      if (half <? r) || ((r =? half) && Z.odd q) then q + 1 else q in
    Z.sgn z * (q' * 2 ^ e).

(** [a + b], [a - b] and [a * b] on numbers. *)
Definition add (a b : Z) : Z := round (a + b).
Definition sub (a b : Z) : Z := round (a - b).
Definition mul (a b : Z) : Z := round (a * b).

End Js.

Arguments Js.round : simpl never.
Arguments Js.add : simpl never.
Arguments Js.sub : simpl never.
Arguments Js.mul : simpl never.

(** The slug expression of [createCategory] and [updateCategory]:
    [name.toLowerCase().replace(/\s+/g, '-').replace(/[^a-z0-9-]/g, '')]. *)
Definition slugify (name : string) : string :=
  Js.stripNonSlug (Js.replaceWhiteSpace (Js.toLowerCase name)).

(* ===================================================================== *)
(** ** Entities ([shared/schema.ts])                                       *)
(* ===================================================================== *)

Inductive ProductType := pet | food | accessory.
Inductive OrderStatus := pending | completed | cancelled.

Global Instance ProductType_eq_dec : EqDecision ProductType.
Proof. solve_decision. Defined.
Global Instance OrderStatus_eq_dec : EqDecision OrderStatus.
Proof. solve_decision. Defined.

Module Category.
Record t := mk {
  id : string; name : string; slug : string; description : string;
  createdAt : Z }.
End Category.

Module InsertCategory.
Record t := mk { name : string; description : string }.
End InsertCategory.

(** [Partial<InsertCategory>]: [None] is an absent key. *)
Module PartialInsertCategory.
Record t := mk { name : option string; description : option string }.
End PartialInsertCategory.

Module Product.
Record t := mk {
  id : string; name : string; categoryId : string; type : ProductType;
  species : option string; images : list string; description : string;
  priceInINR : Z; stock : Z; available : bool; createdAt : Z }.

(** [product.stock = newStock] *)
Definition set_stock (newStock : Z) (p : t) : t :=
  mk (id p) (name p) (categoryId p) (type p) (species p) (images p)
     (description p) (priceInINR p) newStock (available p) (createdAt p).

(** [product.images = images] *)
Definition set_images (imgs : list string) (p : t) : t :=
  mk (id p) (name p) (categoryId p) (type p) (species p) imgs
     (description p) (priceInINR p) (stock p) (available p) (createdAt p).

End Product.

Global Instance Product_inhabited : Inhabited Product.t :=
  populate (Product.mk "" "" "" pet None [] "" 0 0 false 0).

Module InsertProduct.
Record t := mk {
  name : string; categoryId : string; type : ProductType;
  species : option string; description : string;
  priceInINR : Z; stock : Z; available : bool }.
End InsertProduct.

(** [Partial<InsertProduct>]: [None] is an absent key. *)
Module PartialInsertProduct.
Record t := mk {
  name : option string; categoryId : option string;
  type : option ProductType; species : option string;
  description : option string; priceInINR : option Z;
  stock : option Z; available : option bool }.
End PartialInsertProduct.

Module Customer.
Record t := mk {
  name : string; phone : string; altPhone : option string;
  address : string }.
End Customer.

(** A line item of a stored order: the snapshot of the product. *)
Module OrderItem.
Record t := mk {
  productId : string; name : string; priceInINR : Z; quantity : Z }.
End OrderItem.

Module Order.
Record t := mk {
  id : string; products : list OrderItem.t; customer : Customer.t;
  totalAmountINR : Z; status : OrderStatus; createdAt : Z }.

(** [order.status = status] *)
Definition set_status (st : OrderStatus) (o : t) : t :=
  mk (id o) (products o) (customer o) (totalAmountINR o) st (createdAt o).
End Order.

(** A line item of an order request. *)
Module OrderLine.
Record t := mk { productId : string; quantity : Z }.
End OrderLine.

Module InsertOrder.
Record t := mk { products : list OrderLine.t; customer : Customer.t }.
End InsertOrder.

Module SiteSettings.
Record t := mk {
  id : string; description : string; youtubeUrl : string; updatedAt : Z }.
End SiteSettings.

Module UpdateSiteSettings.
Record t := mk { description : string; youtubeUrl : string }.
End UpdateSiteSettings.

(** [insertOrderSchema]: at least one line, every quantity positive, a
    customer name and address of one character or more, a phone of ten. *)
Definition insertOrderSchema (r : InsertOrder.t) : bool :=
  negb (bool_decide (InsertOrder.products r = []))
  && forallb (fun l => 0 <? OrderLine.quantity l) (InsertOrder.products r)
  && (1 <=? String.length (Customer.name (InsertOrder.customer r)))%nat
  && (10 <=? String.length (Customer.phone (InsertOrder.customer r)))%nat
  && (1 <=? String.length (Customer.address (InsertOrder.customer r)))%nat.

(** [insertCategorySchema]: the name has one character or more. *)
Definition insertCategorySchema (c : InsertCategory.t) : bool :=
  (1 <=? String.length (InsertCategory.name c))%nat.

(* ===================================================================== *)
(** ** The in-memory store ([server/storage.ts], class [MemStorage])      *)
(* ===================================================================== *)

(** What is thrown: [new Error(message)], or the error of a failed
    [schema.parse], whose message is the list of issues as text. *)
Inductive Error :=
| mkError (message : string)
| ZodError.

Inductive Result (A : Type) :=
| Ok (a : A)
| Throw (e : Error).
Arguments Ok {A} a.
Arguments Throw {A} e.

(** Reference to a Product object. *)
Abbreviation loc := nat.

Module MemStorage.

(** The private fields. [products] maps an id to the Product object
    stored under it; the objects live in [heap]. The [users] and
    [admins] maps and the session store belong to authentication and
    are left out. *)
Record t := mk {
  categories : gmap string Category.t;
  heap : gmap loc Product.t;
  products : gmap string loc;
  orders : gmap string Order.t;
  siteSettings : SiteSettings.t }.

Definition set_categories (c : gmap string Category.t) (s : t) : t :=
  mk c (heap s) (products s) (orders s) (siteSettings s).
Definition set_heap (h : gmap loc Product.t) (s : t) : t :=
  mk (categories s) h (products s) (orders s) (siteSettings s).
Definition set_products (p : gmap string loc) (s : t) : t :=
  mk (categories s) (heap s) p (orders s) (siteSettings s).
Definition set_orders (o : gmap string Order.t) (s : t) : t :=
  mk (categories s) (heap s) (products s) o (siteSettings s).
Definition set_siteSettings (x : SiteSettings.t) (s : t) : t :=
  mk (categories s) (heap s) (products s) (orders s) x.

(** The object behind a reference. *)
Definition deref (s : t) (l : loc) : Product.t := heap s !!! l.

(** [new MemStorage()] *)
Definition new (now : Z) : t :=
  mk ∅ ∅ ∅ ∅
     (SiteSettings.mk "default"
        "Discover a magical world of pets, premium food, and accessories in our enchanted forest marketplace. Every creature deserves the finest care nature can provide."
        "https://www.youtube.com/embed/dQw4w9WgXcQ" now).

(** *** Categories *)

Definition getCategory (id : string) (s : t) : option Category.t :=
  categories s !! id.

Definition createCategory (uuid : string) (now : Z)
    (insertCategory : InsertCategory.t) (s : t) : t * Category.t :=
  let id := uuid in
  let slug := slugify (InsertCategory.name insertCategory) in
  let category :=
    Category.mk id (InsertCategory.name insertCategory) slug
      (InsertCategory.description insertCategory) now in
  (set_categories (<[id := category]> (categories s)) s, category).

(** The test [updateData.name ? ... : ...]: an absent name and the empty
    string are both falsy. *)
Definition truthy (x : option string) : bool :=
  match x with
  | Some (String _ _) => true
  | _ => false
  end.

Definition updateCategory (id : string)
    (updateData : PartialInsertCategory.t) (s : t)
    : t * option Category.t :=
  match categories s !! id with
  | None => (s, None)
  | Some category =>
      let updatedCategory :=
        Category.mk
          (Category.id category)
          (default (Category.name category)
                   (PartialInsertCategory.name updateData))
          (if truthy (PartialInsertCategory.name updateData)
           then slugify (default "" (PartialInsertCategory.name updateData))
           else Category.slug category)
          (default (Category.description category)
                   (PartialInsertCategory.description updateData))
          (Category.createdAt category) in
      (set_categories (<[id := updatedCategory]> (categories s)) s,
       Some updatedCategory)
  end.

(** [Map.prototype.delete] returns whether the key was there. *)
Definition deleteCategory (id : string) (s : t) : t * bool :=
  (set_categories (delete id (categories s)) s,
   bool_decide (is_Some (categories s !! id))).

(** *** Products *)

Definition getProduct (id : string) (s : t) : option loc :=
  products s !! id.

Definition createProduct (uuid : string) (now : Z)
    (insertProduct : InsertProduct.t) (s : t) : t * loc :=
  let id := uuid in
  let product :=
    Product.mk id
      (InsertProduct.name insertProduct)
      (InsertProduct.categoryId insertProduct)
      (InsertProduct.type insertProduct)
      (InsertProduct.species insertProduct)
      []
      (InsertProduct.description insertProduct)
      (InsertProduct.priceInINR insertProduct)
      (InsertProduct.stock insertProduct)
      (InsertProduct.available insertProduct)
      now in
  let l := fresh (dom (heap s)) in
  (set_products (<[id := l]> (products s))
     (set_heap (<[l := product]> (heap s)) s), l).

(** [{ ...product, ...updateData }] *)
Definition spread (product : Product.t)
    (updateData : PartialInsertProduct.t) : Product.t :=
  Product.mk
    (Product.id product)
    (default (Product.name product) (PartialInsertProduct.name updateData))
    (default (Product.categoryId product)
             (PartialInsertProduct.categoryId updateData))
    (default (Product.type product) (PartialInsertProduct.type updateData))
    (match PartialInsertProduct.species updateData with
     | Some x => Some x
     | None => Product.species product
     end)
    (Product.images product)
    (default (Product.description product)
             (PartialInsertProduct.description updateData))
    (default (Product.priceInINR product)
             (PartialInsertProduct.priceInINR updateData))
    (default (Product.stock product) (PartialInsertProduct.stock updateData))
    (default (Product.available product)
             (PartialInsertProduct.available updateData))
    (Product.createdAt product).

(** The merged record is a new object, stored under the same id. *)
Definition updateProduct (id : string)
    (updateData : PartialInsertProduct.t) (s : t) : t * option loc :=
  match products s !! id with
  | None => (s, None)
  | Some l =>
      let updatedProduct := spread (deref s l) updateData in
      let l' := fresh (dom (heap s)) in
      (set_products (<[id := l']> (products s))
         (set_heap (<[l' := updatedProduct]> (heap s)) s), Some l')
  end.

Definition deleteProduct (id : string) (s : t) : t * bool :=
  (set_products (delete id (products s)) s,
   bool_decide (is_Some (products s !! id))).

(** The stored object itself is changed; [this.products.set(id, product)]
    puts the same object back. *)
Definition updateProductImages (id : string) (imgs : list string) (s : t)
    : t * option loc :=
  match products s !! id with
  | None => (s, None)
  | Some l =>
      (set_products (<[id := l]> (products s))
         (set_heap (<[l := Product.set_images imgs (deref s l)]> (heap s)) s),
       Some l)
  end.

Definition updateProductStock (id : string) (newStock : Z) (s : t)
    : t * option loc :=
  match products s !! id with
  | None => (s, None)
  | Some l =>
      (set_products (<[id := l]> (products s))
         (set_heap (<[l := Product.set_stock newStock (deref s l)]> (heap s)) s),
       Some l)
  end.

(** *** Orders *)

Definition getOrder (id : string) (s : t) : option Order.t :=
  orders s !! id.

(** [products.find(p => p.id === productId)] over Product objects. *)
Definition findById (s : t) (productId : string) (ps : list loc)
    : option loc :=
  find (fun l => bool_decide (Product.id (deref s l) = productId)) ps.

(** The callback of [insertOrder.products.map]: the line item takes the
    name and the price of the product found; the first line without a
    product throws. *)
Fixpoint orderProducts (s : t) (ps : list loc) (lines : list OrderLine.t)
    : Result (list OrderItem.t) :=
  match lines with
  | [] => Ok []
  | orderProduct :: rest =>
      match findById s (OrderLine.productId orderProduct) ps with
      | None =>
          Throw (mkError ("Product " +:+ OrderLine.productId orderProduct
                          +:+ " not found"))
      | Some l =>
          match orderProducts s ps rest with
          | Throw e => Throw e
          | Ok items =>
              Ok (OrderItem.mk (OrderLine.productId orderProduct)
                    (Product.name (deref s l))
                    (Product.priceInINR (deref s l))
                    (OrderLine.quantity orderProduct) :: items)
          end
      end
  end.

(** [orderProducts.reduce((total, product) => total + ..., 0)] *)
Definition totalOf (items : list OrderItem.t) : Z :=
  fold_left
    (fun total product =>
       Js.add total
         (Js.mul (OrderItem.priceInINR product) (OrderItem.quantity product)))
    items 0.

Definition createOrder (uuid : string) (now : Z)
    (insertOrder : InsertOrder.t) (ps : list loc) (s : t)
    : Result (t * Order.t) :=
  let id := uuid in
  match orderProducts s ps (InsertOrder.products insertOrder) with
  | Throw e => Throw e
  | Ok items =>
      let totalAmountINR := totalOf items in
      let order :=
        Order.mk id items (InsertOrder.customer insertOrder)
          totalAmountINR pending now in
      Ok (set_orders (<[id := order]> (orders s)) s, order)
  end.

Definition updateOrderStatus (id : string) (status : OrderStatus) (s : t)
    : t * option Order.t :=
  match orders s !! id with
  | None => (s, None)
  | Some order =>
      let order' := Order.set_status status order in
      (set_orders (<[id := order']> (orders s)) s, Some order')
  end.

(** *** Site settings *)

Definition getSiteSettings (s : t) : SiteSettings.t := siteSettings s.

(** [{ ...this.siteSettings, ...settings, updatedAt: new Date() }] *)
Definition updateSiteSettings (now : Z) (settings : UpdateSiteSettings.t)
    (s : t) : t * SiteSettings.t :=
  let updated :=
    SiteSettings.mk
      (SiteSettings.id (siteSettings s))
      (UpdateSiteSettings.description settings)
      (UpdateSiteSettings.youtubeUrl settings)
      now in
  (set_siteSettings updated s, updated).

(** *** Consistency of the product map

    Every id of the map leads to a live object that carries this id. *)
Definition wf (s : t) : Prop :=
  ∀ k l, products s !! k = Some l →
         ∃ p, heap s !! l = Some p ∧ Product.id p = k.

End MemStorage.

(* ===================================================================== *)
(** ** The server state and the handler monad ([server/routes.ts])        *)
(* ===================================================================== *)

(** What a handler sends as JSON: a response body or the [data] of a
    broadcast. *)
Inductive Json :=
| JOrder (o : Order.t)
| JCategory (c : Category.t)
| JSettings (x : SiteSettings.t)
| JId (id : string)
| JMessage (m : string)
| JZodIssues
| JNothing.

Record Response := mkResponse { status : Z; body : Json }.

Inductive ReadyState := CONNECTING | OPEN | CLOSING | CLOSED.

Global Instance ReadyState_eq_dec : EqDecision ReadyState.
Proof. solve_decision. Defined.

(** A connection of the [ws] library: its state, kept by the transport,
    and the frames delivered to the peer so far. *)
Module WebSocket.
Record t := mk { readyState : ReadyState; received : list string }.

(** [client.send(message)]: delivered on an open connection; the call
    fails on any other. *)
Definition send (message : string) (ws : t) : Result t :=
  match readyState ws with
  | OPEN => Ok (mk OPEN (received ws ++ [message]))
  | _ => Throw (mkError "WebSocket is not open")
  end.
End WebSocket.

Global Instance WebSocket_inhabited : Inhabited WebSocket.t :=
  populate (WebSocket.mk CLOSED []).

(** The module state: the [storage] singleton, the connection objects and
    the set [wsClients] of registered connections. *)
Record Server := mkServer {
  storage : MemStorage.t;
  sockets : gmap nat WebSocket.t;
  wsClients : gset nat }.

Definition set_storage (st : MemStorage.t) (srv : Server) : Server :=
  mkServer st (sockets srv) (wsClients srv).
Definition set_sockets (so : gmap nat WebSocket.t) (srv : Server) : Server :=
  mkServer (storage srv) so (wsClients srv).
Definition set_wsClients (cs : gset nat) (srv : Server) : Server :=
  mkServer (storage srv) (sockets srv) cs.

(** A handler body runs on the server state and returns or throws; what
    it changed before a throw stays changed. *)
Definition Handler (A : Type) : Type := Server → Server * Result A.

Definition ret {A} (a : A) : Handler A := fun srv => (srv, Ok a).

Definition throw {A} (e : Error) : Handler A := fun srv => (srv, Throw e).

Definition bind {A B} (m : Handler A) (k : A → Handler B) : Handler B :=
  fun srv =>
    match m srv with
    | (srv', Ok a) => k a srv'
    | (srv', Throw e) => (srv', Throw e)
    end.

Notation "'let*' x := m 'in' k" := (bind m (fun x => k))
  (at level 10, x name, m at level 100, k at level 200, only parsing).

(** [await storage.method(...)] for a method that cannot throw. *)
Definition await {A} (f : MemStorage.t → MemStorage.t * A) : Handler A :=
  fun srv => let '(st, a) := f (storage srv) in (set_storage st srv, Ok a).

(** [await storage.method(...)] for a method that may throw. *)
Definition await_result {A} (f : MemStorage.t → Result (MemStorage.t * A))
    : Handler A :=
  fun srv =>
    match f (storage srv) with
    | Ok (st, a) => (set_storage st srv, Ok a)
    | Throw e => (srv, Throw e)
    end.

(** A read of the store. *)
Definition read {A} (f : MemStorage.t → A) : Handler A :=
  fun srv => (srv, Ok (f (storage srv))).

(** [try { body } catch (error) { onError(error) }] of a handler. *)
Definition try_catch (m : Handler Response) (onError : Error → Response)
    (srv : Server) : Server * Response :=
  match m srv with
  | (srv', Ok r) => (srv', r)
  | (srv', Throw e) => (srv', onError e)
  end.

(** [{ message: error.message || fallback }] *)
Definition message_or (e : Error) (fallback : string) : Json :=
  match e with
  | ZodError => JZodIssues
  | mkError EmptyString => JMessage fallback
  | mkError m => JMessage m
  end.

(** [schema.parse(req.body)] *)
Definition parse {A} (schema : A → bool) (x : A) : Handler A :=
  if schema x then ret x else throw ZodError.

(** [list.forEach(f)] with an [f] that may throw. *)
Fixpoint forEach {A} (f : A → Handler unit) (l : list A) : Handler unit :=
  match l with
  | [] => ret tt
  | x :: rest => let* _ := f x in forEach f rest
  end.

Section Routes.

(** [JSON.stringify({ event, data })] *)
Variable JSON_stringify : string → Json → string.

(** *** The change notifier *)

Definition socket (srv : Server) (client : nat) : WebSocket.t :=
  sockets srv !!! client.

(** [client.send(message)] on the connection object [client]. *)
Definition client_send (client : nat) (message : string) : Handler unit :=
  fun srv =>
    match WebSocket.send message (socket srv client) with
    | Ok ws => (set_sockets (<[client := ws]> (sockets srv)) srv, Ok tt)
    | Throw e => (srv, Throw e)
    end.

(** The callback of [wsClients.forEach]. *)
Definition sendIfOpen (message : string) (client : nat) : Handler unit :=
  fun srv =>
    if decide (WebSocket.readyState (socket srv client) = OPEN)
    then client_send client message srv
    else ret tt srv.

(** The message is serialised once, then offered to every registered
    connection. The order of the visits is that of [elements], not the
    insertion order of the JS [Set]; a visit changes only the connection it
    visits. *)
Definition broadcastUpdate (event : string) (data : Json) : Handler unit :=
  fun srv =>
    let message := JSON_stringify event data in
    forEach (sendIfOpen message) (elements (wsClients srv)) srv.

(** [wss.on("connection", ...)], [ws.on("close", ...)] and
    [ws.on("error", ...)]. *)
Definition on_connection (ws : nat) (srv : Server) : Server :=
  set_wsClients ({[ws]} ∪ wsClients srv) srv.

Definition on_close (ws : nat) (srv : Server) : Server :=
  set_wsClients (wsClients srv ∖ {[ws]}) srv.

Definition on_error (ws : nat) (srv : Server) : Server :=
  set_wsClients (wsClients srv ∖ {[ws]}) srv.

(** *** POST /api/orders *)

(** [products.find(p => p?.id === productId)] over the resolved array,
    whose entries are Product objects or [undefined]. *)
Fixpoint findProduct (st : MemStorage.t) (productId : string)
    (products : list (option loc)) : option loc :=
  match products with
  | [] => None
  | None :: rest => findProduct st productId rest
  | Some l :: rest =>
      if bool_decide (Product.id (MemStorage.deref st l) = productId)
      then Some l
      else findProduct st productId rest
  end.

Definition notFound : Response :=
  mkResponse 400 (JMessage "One or more products not found").

Definition insufficientStock (name : string) : Response :=
  mkResponse 400 (JMessage ("Insufficient stock for product: " +:+ name)).

(** The stock check: the response of the first line that fails, if any. *)
Fixpoint checkStock (st : MemStorage.t) (products : list (option loc))
    (lines : list OrderLine.t) : option Response :=
  match lines with
  | [] => None
  | orderProduct :: rest =>
      match findProduct st (OrderLine.productId orderProduct) products with
      | None => Some (insufficientStock "undefined")
      | Some l =>
          let product := MemStorage.deref st l in
          if Product.stock product <? OrderLine.quantity orderProduct
          then Some (insufficientStock (Product.name product))
          else checkStock st products rest
      end
  end.

(** The stock update: each line reads the stock of its product object as
    it is at that moment and stores the difference. *)
Fixpoint decrementStock (products : list (option loc))
    (lines : list OrderLine.t) (st : MemStorage.t) : MemStorage.t :=
  match lines with
  | [] => st
  | orderProduct :: rest =>
      match findProduct st (OrderLine.productId orderProduct) products with
      | Some l =>
          let product := MemStorage.deref st l in
          decrementStock products rest
            (fst (MemStorage.updateProductStock (Product.id product)
                    (Js.sub (Product.stock product)
                       (OrderLine.quantity orderProduct))
                    st))
      | None => decrementStock products rest st
      end
  end.

Definition postOrders_body (uuid : string) (now : Z) (body : InsertOrder.t)
    : Handler Response :=
  let* validatedData := parse insertOrderSchema body in
  let productIds :=
    map OrderLine.productId (InsertOrder.products validatedData) in
  let* products :=
    read (fun st => map (fun id => MemStorage.getProduct id st) productIds) in
  if existsb (fun p => negb (bool_decide (is_Some p))) products
  then ret notFound
  else
    let* failed :=
      read (fun st =>
              checkStock st products (InsertOrder.products validatedData)) in
    match failed with
    | Some response => ret response
    | None =>
        let* order :=
          await_result
            (MemStorage.createOrder uuid now validatedData
               (omap (fun p => p) products)) in
        let* _ :=
          await (fun st =>
                   (decrementStock products
                      (InsertOrder.products validatedData) st, tt)) in
        let* _ := broadcastUpdate "order:created" (JOrder order) in
        ret (mkResponse 201 (JOrder order))
    end.

Definition postOrders (uuid : string) (now : Z) (body : InsertOrder.t)
    : Server → Server * Response :=
  try_catch (postOrders_body uuid now body)
    (fun error => mkResponse 400 (message_or error "Failed to create order")).

(** *** Admin routes *)

(** The [requireAdmin] middleware; [isAuthenticated] is the answer of
    [req.isAuthenticated()]. *)
Definition requireAdmin (isAuthenticated : bool)
    (next : Server → Server * Response) (srv : Server)
    : Server * Response :=
  if negb isAuthenticated
  then (srv, mkResponse 401 (JMessage "Authentication required"))
  else next srv.

(** The test [["pending", "completed", "cancelled"].includes(status)],
    with the status it lets through. *)
Definition includes_status (status : string) : option OrderStatus :=
  if String.eqb status "pending" then Some pending
  else if String.eqb status "completed" then Some completed
  else if String.eqb status "cancelled" then Some cancelled
  else None.

(** PUT /api/admin/orders/:id/status *)
Definition putOrderStatus (isAuthenticated : bool) (id : string)
    (status : string) : Server → Server * Response :=
  requireAdmin isAuthenticated
    (try_catch
       (match includes_status status with
        | None => ret (mkResponse 400 (JMessage "Invalid status"))
        | Some st =>
            let* order := await (MemStorage.updateOrderStatus id st) in
            match order with
            | None => ret (mkResponse 404 (JMessage "Order not found"))
            | Some o =>
                let* _ := broadcastUpdate "order:updated" (JOrder o) in
                ret (mkResponse 200 (JOrder o))
            end
        end)
       (fun _ =>
          mkResponse 500 (JMessage "Failed to update order status"))).

(** POST /api/admin/categories *)
Definition postCategories (isAuthenticated : bool) (uuid : string)
    (now : Z) (body : InsertCategory.t) : Server → Server * Response :=
  requireAdmin isAuthenticated
    (try_catch
       (let* validatedData := parse insertCategorySchema body in
        let* category :=
          await (MemStorage.createCategory uuid now validatedData) in
        let* _ := broadcastUpdate "category:created" (JCategory category) in
        ret (mkResponse 201 (JCategory category)))
       (fun error =>
          mkResponse 400 (message_or error "Failed to create category"))).

(** A full [InsertCategory] passed where a [Partial] is expected. *)
Definition asPartial (c : InsertCategory.t) : PartialInsertCategory.t :=
  PartialInsertCategory.mk (Some (InsertCategory.name c))
    (Some (InsertCategory.description c)).

(** PUT /api/admin/categories/:id *)
Definition putCategories (isAuthenticated : bool) (id : string)
    (body : InsertCategory.t) : Server → Server * Response :=
  requireAdmin isAuthenticated
    (try_catch
       (let* validatedData := parse insertCategorySchema body in
        let* category :=
          await (MemStorage.updateCategory id (asPartial validatedData)) in
        match category with
        | None => ret (mkResponse 404 (JMessage "Category not found"))
        | Some c =>
            let* _ := broadcastUpdate "category:updated" (JCategory c) in
            ret (mkResponse 200 (JCategory c))
        end)
       (fun error =>
          mkResponse 400 (message_or error "Failed to update category"))).

(** DELETE /api/admin/categories/:id *)
Definition deleteCategories (isAuthenticated : bool) (id : string)
    : Server → Server * Response :=
  requireAdmin isAuthenticated
    (try_catch
       (let* deleted := await (MemStorage.deleteCategory id) in
        if negb deleted
        then ret (mkResponse 404 (JMessage "Category not found"))
        else
          let* _ := broadcastUpdate "category:deleted" (JId id) in
          ret (mkResponse 204 JNothing))
       (fun _ => mkResponse 500 (JMessage "Failed to delete category"))).

End Routes.

(* ===================================================================== *)
(** ** Vocabulary of the statements                                       *)
(* ===================================================================== *)

(** The stock of the product stored under [k], if there is one. *)
Definition stockOf (st : MemStorage.t) (k : string) : option Z :=
  l ← MemStorage.products st !! k;
  Some (Product.stock (MemStorage.deref st l)).

(** The sum of price times quantity over line items. *)
Fixpoint lineTotal (items : list OrderItem.t) : Z :=
  match items with
  | [] => 0
  | item :: rest =>
      OrderItem.priceInINR item * OrderItem.quantity item + lineTotal rest
  end.


(** The products array of the order handler for the request [body]: the
    object of each requested id, or [None] where there is none. *)
Definition resolved (st : MemStorage.t) (body : InsertOrder.t)
    : list (option loc) :=
  map (fun id => MemStorage.getProduct id st)
      (map OrderLine.productId (InsertOrder.products body)).

(** The product stored under [k]. *)
Definition productOf (st : MemStorage.t) (k : string) : Product.t :=
  match MemStorage.products st !! k with
  | Some l => MemStorage.deref st l
  | None => inhabitant
  end.

(** The line item of an order for a request line: the requested id and
    quantity with the name and the price the product has in [st]. *)
Definition snapshot (st : MemStorage.t) (line : OrderLine.t) : OrderItem.t :=
  OrderItem.mk (OrderLine.productId line)
    (Product.name (productOf st (OrderLine.productId line)))
    (Product.priceInINR (productOf st (OrderLine.productId line)))
    (OrderLine.quantity line).

(** The order a request creates in the store [st]. *)
Definition placedOrder (uuid : string) (now : Z) (body : InsertOrder.t)
    (st : MemStorage.t) : Order.t :=
  let items := map (snapshot st) (InsertOrder.products body) in
  Order.mk uuid items (InsertOrder.customer body) (MemStorage.totalOf items)
    pending now.

(** Every line of the request names a stored product that has the
    requested quantity in stock. *)
Definition inStock (st : MemStorage.t) (body : InsertOrder.t) : Prop :=
  Forall (fun line =>
            ∃ l, MemStorage.products st !! OrderLine.productId line = Some l
                 ∧ OrderLine.quantity line
                   ≤ Product.stock (MemStorage.deref st l))
         (InsertOrder.products body).

(** A sequence of product updates, each an id with its patch. *)
Definition updateProducts (us : list (string * PartialInsertProduct.t))
    (st : MemStorage.t) : MemStorage.t :=
  fold_left (fun s u => fst (MemStorage.updateProduct (fst u) (snd u) s))
            us st.

(** The store after an accepted request: the order is stored, then the
    stock update runs. *)
Definition storeAfter (uuid : string) (now : Z) (body : InsertOrder.t)
    (st : MemStorage.t) : MemStorage.t :=
  decrementStock (resolved st body) (InsertOrder.products body)
    (MemStorage.set_orders
       (<[uuid := placedOrder uuid now body st]> (MemStorage.orders st)) st).

(** The stock [s] of the product [k] after the lines of a request, one
    after the other, have each taken their quantity from it. *)
Definition stockAfterLines (k : string) (lines : list OrderLine.t) (s : Z)
    : Z :=
  fold_left
    (fun v line =>
       if bool_decide (OrderLine.productId line = k)
       then Js.sub v (OrderLine.quantity line) else v)
    lines s.

(** What the stock update makes of the object at [l]: the object stored
    under its own id loses the ordered quantities, any other is left. *)
Definition decremented (st : MemStorage.t) (lines : list OrderLine.t)
    (l : loc) (p : Product.t) : Product.t :=
  if decide (MemStorage.products st !! Product.id p = Some l)
  then Product.set_stock
         (stockAfterLines (Product.id p) lines (Product.stock p)) p
  else p.

(** The name of a status in a request. *)
Definition statusName (s : OrderStatus) : string :=
  match s with
  | pending => "pending"
  | completed => "completed"
  | cancelled => "cancelled"
  end.

(** The transitions the specification allows. *)
Definition allowedTransition (from to : OrderStatus) : bool :=
  match from, to with
  | pending, completed | pending, cancelled => true
  | _, _ => false
  end.

(** A checkable form of [MemStorage.wf]. *)
Definition wfb (st : MemStorage.t) : bool :=
  bool_decide
    (map_Forall
       (fun k l => Product.id <$> MemStorage.heap st !! l = Some k)
       (MemStorage.products st)).

(** The line items have prices and quantities that are not negative and
    an exact sum below 2^53, so that no product and no running sum is
    rounded. *)
Definition exactTotal (items : list OrderItem.t) : Prop :=
  Forall (fun item => 0 ≤ OrderItem.priceInINR item
                      ∧ 0 ≤ OrderItem.quantity item) items
  ∧ lineTotal items < 2 ^ 53.

(** ** Sequences of order requests *)

(** Order requests handled one after the other, each with the id and the
    time its order gets. *)
Definition placeOrders (JSON_stringify : string → Json → string)
    (requests : list (string * Z * InsertOrder.t)) (srv : Server) : Server :=
  fold_left
    (fun s request =>
       fst (postOrders JSON_stringify (fst (fst request)) (snd (fst request))
              (snd request) s))
    requests srv.

(** No product of the store has a negative stock. *)
Definition nonNegativeStock (st : MemStorage.t) : Prop :=
  ∀ k s, stockOf st k = Some s → 0 ≤ s.

(** No two lines of the request name the same product. *)
Definition distinctProducts (body : InsertOrder.t) : Prop :=
  NoDup (map OrderLine.productId (InsertOrder.products body)).

(* ===================================================================== *)
(** ** Sample data                                                        *)
(* ===================================================================== *)

Module Sample.

Definition birds : InsertCategory.t :=
  InsertCategory.mk "Exotic Birds!" "Feathered friends".

(** A product with two pieces in stock, not marked available. *)
Definition macaw : InsertProduct.t :=
  InsertProduct.mk "Macaw" "c1" pet (Some "Bird") "A blue macaw" 4500 2
    false.

Definition seed : InsertProduct.t :=
  InsertProduct.mk "Seed mix" "c1" food None "One kilogram" 300 10 true.

(** The store after the category and the two products are created. *)
Definition store : MemStorage.t :=
  fst (MemStorage.createProduct "p2" 3 seed
    (fst (MemStorage.createProduct "p1" 2 macaw
      (fst (MemStorage.createCategory "c1" 1 birds (MemStorage.new 0)))))).

(** Two registered connections, of which the second is closed. *)
Definition server : Server :=
  mkServer store
    (<[7%nat := WebSocket.mk OPEN []]>
       (<[8%nat := WebSocket.mk CLOSED []]> ∅))
    ({[7%nat]} ∪ {[8%nat]}).

Definition customer : Customer.t :=
  Customer.mk "Asha" "9876543210" None "12 Lake Road".

Definition order (lines : list OrderLine.t) : InsertOrder.t :=
  InsertOrder.mk lines customer.

(** A serialiser that keeps the event name only. *)
Definition stringify (event : string) (data : Json) : string := event.

(** The server after an order for one macaw is placed and then marked
    completed by the admin. *)
Definition completedServer : Server :=
  fst (putOrderStatus stringify true "o1" "completed"
         (fst (postOrders stringify "o1" 20 (order [OrderLine.mk "p1" 1])
                 server))).

(** A store with one product whose price is the largest odd integer
    among the doubles, 2^53 - 1. *)
Definition dear : InsertProduct.t :=
  InsertProduct.mk "Gold cage" "c1" accessory None "Solid gold"
    9007199254740991 5 true.

Definition dearStore : MemStorage.t :=
  fst (MemStorage.createProduct "p9" 2 dear (MemStorage.new 0)).

End Sample.

(* ===================================================================== *)
(** ** The listing methods of the store                                   *)
(* ===================================================================== *)

(** The filters argument of [getProducts]: [None] is an absent key. *)
Module ProductFilters.
Record t := mk {
  categoryId : option string; type : option string;
  species : option string }.
End ProductFilters.

(** The string of a product type. *)
Definition typeName (t : ProductType) : string :=
  match t with
  | pet => "pet"
  | food => "food"
  | accessory => "accessory"
  end.

(** [a.createdAt.getTime() - b.createdAt.getTime() <= 0] for products,
    categories and orders. *)
Definition productOlder (a b : Product.t) : Prop :=
  Product.createdAt a ≤ Product.createdAt b.
Definition categoryOlder (a b : Category.t) : Prop :=
  Category.createdAt a ≤ Category.createdAt b.
Definition orderNewer (a b : Order.t) : Prop :=
  Order.createdAt b ≤ Order.createdAt a.

Global Instance productOlder_dec a b : Decision (productOlder a b).
Proof. unfold productOlder. apply _. Defined.
Global Instance categoryOlder_dec a b : Decision (categoryOlder a b).
Proof. unfold categoryOlder. apply _. Defined.
Global Instance orderNewer_dec a b : Decision (orderNewer a b).
Proof. unfold orderNewer. apply _. Defined.

(** [Array.from(this.products.values())]: the stored Product objects. The
    order of the array is that of [map_to_list], not the insertion order of
    the JS [Map]. *)
Definition productValues (s : MemStorage.t) : list Product.t :=
  map (fun kl => MemStorage.deref s (snd kl))
      (map_to_list (MemStorage.products s)).

(** One step of [getProducts]: [if (filters?.key) products =
    products.filter(p => test p filters.key)]. *)
Definition filterWhen (key : option string)
    (test : Product.t → string → bool) (products : list Product.t)
    : list Product.t :=
  if MemStorage.truthy key
  then List.filter (fun p => test p (default "" key)) products
  else products.

(** [getProducts(filters?)] *)
Definition getProducts (filters : option ProductFilters.t)
    (s : MemStorage.t) : list Product.t :=
  let products := productValues s in
  let products :=
    filterWhen (filters ≫= ProductFilters.categoryId)
      (fun p v => bool_decide (Product.categoryId p = v)) products in
  let products :=
    filterWhen (filters ≫= ProductFilters.type)
      (fun p v => bool_decide (typeName (Product.type p) = v)) products in
  let products :=
    filterWhen (filters ≫= ProductFilters.species)
      (fun p v => bool_decide (Product.species p = Some v)) products in
  merge_sort productOlder products.

(** [getCategories()] *)
Definition getCategories (s : MemStorage.t) : list Category.t :=
  merge_sort categoryOlder
    (map snd (map_to_list (MemStorage.categories s))).

(** [getOrders()] *)
Definition getOrders (s : MemStorage.t) : list Order.t :=
  merge_sort orderNewer (map snd (map_to_list (MemStorage.orders s))).

(** A product passes the filters that are given and not empty. *)
Definition passesFilters (filters : option ProductFilters.t)
    (p : Product.t) : Prop :=
  (∀ v, filters ≫= ProductFilters.categoryId = Some v → v ≠ "" →
        Product.categoryId p = v)
  ∧ (∀ v, filters ≫= ProductFilters.type = Some v → v ≠ "" →
          typeName (Product.type p) = v)
  ∧ (∀ v, filters ≫= ProductFilters.species = Some v → v ≠ "" →
          Product.species p = Some v).

(* ===================================================================== *)
(** ** Sequences of store calls                                           *)
(* ===================================================================== *)

(** A call of a method of the store that may change it. *)
Inductive StoreOp :=
| OpCreateCategory (uuid : string) (now : Z) (c : InsertCategory.t)
| OpUpdateCategory (id : string) (u : PartialInsertCategory.t)
| OpDeleteCategory (id : string)
| OpCreateProduct (uuid : string) (now : Z) (p : InsertProduct.t)
| OpUpdateProduct (id : string) (u : PartialInsertProduct.t)
| OpDeleteProduct (id : string)
| OpUpdateProductImages (id : string) (imgs : list string)
| OpUpdateProductStock (id : string) (newStock : Z)
| OpCreateOrder (uuid : string) (now : Z) (o : InsertOrder.t) (ps : list loc)
| OpUpdateOrderStatus (id : string) (st : OrderStatus)
| OpUpdateSiteSettings (now : Z) (x : UpdateSiteSettings.t).

(** The store after the call; a call that throws leaves it as it is. *)
Definition applyOp (op : StoreOp) (s : MemStorage.t) : MemStorage.t :=
  match op with
  | OpCreateCategory uuid now c => fst (MemStorage.createCategory uuid now c s)
  | OpUpdateCategory id u => fst (MemStorage.updateCategory id u s)
  | OpDeleteCategory id => fst (MemStorage.deleteCategory id s)
  | OpCreateProduct uuid now p => fst (MemStorage.createProduct uuid now p s)
  | OpUpdateProduct id u => fst (MemStorage.updateProduct id u s)
  | OpDeleteProduct id => fst (MemStorage.deleteProduct id s)
  | OpUpdateProductImages id imgs =>
      fst (MemStorage.updateProductImages id imgs s)
  | OpUpdateProductStock id n => fst (MemStorage.updateProductStock id n s)
  | OpCreateOrder uuid now o ps =>
      match MemStorage.createOrder uuid now o ps s with
      | Ok (s', _) => s'
      | Throw _ => s
      end
  | OpUpdateOrderStatus id st => fst (MemStorage.updateOrderStatus id st s)
  | OpUpdateSiteSettings now x => fst (MemStorage.updateSiteSettings now x s)
  end.

Definition applyOps (ops : list StoreOp) (s : MemStorage.t) : MemStorage.t :=
  fold_left (fun s op => applyOp op s) ops s.

(** Every entry of a map sits under its own id, and the total of every
    order is the one the store computes from its line items. *)
Definition keysAgree (s : MemStorage.t) : Prop :=
  MemStorage.wf s
  ∧ (∀ id c, MemStorage.categories s !! id = Some c → Category.id c = id)
  ∧ (∀ id o, MemStorage.orders s !! id = Some o →
             Order.id o = id
             ∧ Order.totalAmountINR o = MemStorage.totalOf (Order.products o)).

(** The product stored under [k], as a value, if there is one. *)
Definition lookupProduct (k : string) (s : MemStorage.t) : option Product.t :=
  MemStorage.deref s <$> MemStorage.getProduct k s.

(** A patch without any key. *)
Definition emptyPatch : PartialInsertProduct.t :=
  PartialInsertProduct.mk None None None None None None None None.

(* ===================================================================== *)
(** ** More routes ([server/routes.ts])                                   *)
(* ===================================================================== *)

(** The body of PUT /api/admin/site before validation: [None] is an
    absent key. *)
Module SiteSettingsBody.
Record t := mk { description : option string; youtubeUrl : option string }.
End SiteSettingsBody.

(** [schema.parse(req.body)] for a schema that fills in defaults. *)
Definition parse_with {A B} (schema : A → option B) (x : A) : Handler B :=
  match schema x with
  | Some v => ret v
  | None => throw ZodError
  end.

Section MoreRoutes.

Variable JSON_stringify : string → Json → string.

(** The URL test of the schema library, [z.string().url()]. *)
Variable isUrl : string → bool.

(** [updateSiteSettingsSchema]: a description of one character or more,
    and [z.string().url().optional().default("")] for the video URL: the
    default takes the place of an absent key first, and the URL test then
    runs on what is there, the default included. *)
Definition updateSiteSettingsSchema (body : SiteSettingsBody.t)
    : option UpdateSiteSettings.t :=
  match SiteSettingsBody.description body with
  | Some (String c d) =>
      let url := default "" (SiteSettingsBody.youtubeUrl body) in
      if isUrl url then Some (UpdateSiteSettings.mk (String c d) url)
      else None
  | _ => None
  end.

(** PUT /api/admin/site *)
Definition putSite (isAuthenticated : bool) (now : Z)
    (body : SiteSettingsBody.t) : Server → Server * Response :=
  requireAdmin isAuthenticated
    (try_catch
       (let* validatedData := parse_with updateSiteSettingsSchema body in
        let* settings :=
          await (MemStorage.updateSiteSettings now validatedData) in
        let* _ := broadcastUpdate JSON_stringify "settings:updated"
                    (JSettings settings) in
        ret (mkResponse 200 (JSettings settings)))
       (fun error =>
          mkResponse 400
            (message_or error "Failed to update site settings"))).

(** GET /api/public/settings *)
Definition getSettings : Server → Server * Response :=
  try_catch
    (let* settings := read MemStorage.getSiteSettings in
     ret (mkResponse 200 (JSettings settings)))
    (fun _ => mkResponse 500 (JMessage "Failed to fetch site settings")).

(** DELETE /api/admin/products/:id *)
Definition deleteProducts (isAuthenticated : bool) (id : string)
    : Server → Server * Response :=
  requireAdmin isAuthenticated
    (try_catch
       (let* deleted := await (MemStorage.deleteProduct id) in
        if negb deleted
        then ret (mkResponse 404 (JMessage "Product not found"))
        else
          let* _ := broadcastUpdate JSON_stringify "product:deleted"
                      (JId id) in
          ret (mkResponse 204 JNothing))
       (fun _ => mkResponse 500 (JMessage "Failed to delete product"))).

(** GET /api/categories/:id *)
Definition getCategoryById (id : string) : Server → Server * Response :=
  try_catch
    (let* category := read (MemStorage.getCategory id) in
     match category with
     | None => ret (mkResponse 404 (JMessage "Category not found"))
     | Some c => ret (mkResponse 200 (JCategory c))
     end)
    (fun _ => mkResponse 500 (JMessage "Failed to fetch category")).

(** GET /api/admin/orders/:id *)
Definition getOrderById (isAuthenticated : bool) (id : string)
    : Server → Server * Response :=
  requireAdmin isAuthenticated
    (try_catch
       (let* order := read (MemStorage.getOrder id) in
        match order with
        | None => ret (mkResponse 404 (JMessage "Order not found"))
        | Some o => ret (mkResponse 200 (JOrder o))
        end)
       (fun _ => mkResponse 500 (JMessage "Failed to fetch order"))).

End MoreRoutes.

(** The answer is one of the success codes the handlers use. *)
Definition succeeded (r : Response) : bool :=
  (status r =? 200) || (status r =? 201) || (status r =? 204).

(** A request to one of the category routes. *)
Inductive CategoryRequest :=
| PostCategory (isAuthenticated : bool) (uuid : string) (now : Z)
    (body : InsertCategory.t)
| PutCategory (isAuthenticated : bool) (id : string) (body : InsertCategory.t)
| DeleteCategory (isAuthenticated : bool) (id : string).

(** The server after the request is handled. *)
Definition handleCategoryRequest (JSON_stringify : string → Json → string)
    (request : CategoryRequest) (srv : Server) : Server :=
  match request with
  | PostCategory a uuid now body =>
      fst (postCategories JSON_stringify a uuid now body srv)
  | PutCategory a id body => fst (putCategories JSON_stringify a id body srv)
  | DeleteCategory a id => fst (deleteCategories JSON_stringify a id srv)
  end.

(** Every stored category has a name of one character or more and the
    slug of this name. *)
Definition slugsInSync (st : MemStorage.t) : Prop :=
  ∀ id c, MemStorage.categories st !! id = Some c →
          Category.name c ≠ ""
          ∧ Category.slug c = slugify (Category.name c).

(** A request to the status route: session, order id, requested status. *)
Definition handleStatusRequest (JSON_stringify : string → Json → string)
    (request : bool * string * string) (srv : Server) : Server :=
  fst (putOrderStatus JSON_stringify (fst (fst request)) (snd (fst request))
         (snd request) srv).

(* ===================================================================== *)
(** ** The client that places orders                                      *)
(* ===================================================================== *)

(** The quantity buttons of the product modal component; the new quantity
    is what the handler passes to [onQuantityChange], or the old one when
    it does not call it. The stock of the product shown is any finite
    number, a rational here; the quantity starts at 1 and stays an
    integer. *)
Module ProductModal.

Definition handleQuantityDecrease (quantity : Z) : Z :=
  if 1 <? quantity then Js.sub quantity 1 else quantity.

(** [quantity < product.stock] *)
Definition belowStock (stock : Q) (quantity : Z) : bool :=
  negb (Qle_bool stock (inject_Z quantity)).

Definition handleQuantityIncrease (stock : Q) (quantity : Z) : Z :=
  if belowStock stock quantity then Js.add quantity 1 else quantity.

Inductive Click := Minus | Plus.

Definition click (stock : Q) (quantity : Z) (c : Click) : Z :=
  match c with
  | Minus => handleQuantityDecrease quantity
  | Plus => handleQuantityIncrease stock quantity
  end.

(** The quantity after a sequence of clicks; the page opens the modal with
    quantity 1. *)
Definition clicks (stock : Q) (cs : list Click) : Z :=
  fold_left (click stock) cs 1.

End ProductModal.

(** The submit handler of the checkout modal
    ([client/src/components/checkout-modal.tsx]). *)
Module CheckoutModal.

Record CustomerData := mk {
  name : string; phone : string; altPhone : string; address : string }.

(** [x || undefined] *)
Definition orUndefined (x : string) : option string :=
  match x with
  | EmptyString => None
  | _ => Some x
  end.

(** The order data passed to the mutation, that is the body of the POST
    to /api/orders; [None] when the handler returns before. *)
Definition handleSubmit (product : option Product.t) (quantity : Z)
    (customerData : CustomerData) : option InsertOrder.t :=
  match product with
  | None => None
  | Some product =>
      Some (InsertOrder.mk
              [OrderLine.mk (Product.id product) quantity]
              (Customer.mk (name customerData) (phone customerData)
                 (orUndefined (altPhone customerData))
                 (address customerData)))
  end.

End CheckoutModal.

(* ===================================================================== *)
(** ** Users and admins ([server/storage.ts])                             *)
(* ===================================================================== *)

Module User.
Record t := mk { id : string; username : string; password : string }.
End User.

Module InsertUser.
Record t := mk { username : string; password : string }.
End InsertUser.

Module Admin.
Record t := mk {
  id : string; name : string; email : string; password : string;
  role : string; createdAt : Z }.
End Admin.

Module InsertAdmin.
Record t := mk { name : string; email : string; password : string }.
End InsertAdmin.

(** The [users] and [admins] maps of [MemStorage] and their methods.
    [Array.from(map.values()).find(test)] visits the values in the order of
    [map_to_list], not in the insertion order of the JS [Map]. *)
Module AuthStore.

Record t := mk {
  users : gmap string User.t;
  admins : gmap string Admin.t }.

Definition new : t := mk ∅ ∅.

Definition getUser (id : string) (s : t) : option User.t := users s !! id.

Definition getUserByUsername (username : string) (s : t) : option User.t :=
  List.find (fun user => bool_decide (User.username user = username))
    (map snd (map_to_list (users s))).

Definition createUser (uuid : string) (insertUser : InsertUser.t) (s : t)
    : t * User.t :=
  let id := uuid in
  let user :=
    User.mk id (InsertUser.username insertUser)
      (InsertUser.password insertUser) in
  (mk (<[id := user]> (users s)) (admins s), user).

Definition getAdmin (id : string) (s : t) : option Admin.t := admins s !! id.

Definition getAdminByEmail (email : string) (s : t) : option Admin.t :=
  List.find (fun admin => bool_decide (Admin.email admin = email))
    (map snd (map_to_list (admins s))).

Definition createAdmin (uuid : string) (now : Z)
    (insertAdmin : InsertAdmin.t) (s : t) : t * Admin.t :=
  let id := uuid in
  let admin :=
    Admin.mk id (InsertAdmin.name insertAdmin)
      (InsertAdmin.email insertAdmin) (InsertAdmin.password insertAdmin)
      "admin" now in
  (mk (users s) (<[id := admin]> (admins s)), admin).

(** [initializeDefaultAdmin()]; [hashed] is what [hashPassword("admin123")]
    returns. *)
Definition initializeDefaultAdmin (uuid : string) (now : Z)
    (hashed : string) (s : t) : t :=
  match getAdminByEmail "admin@petshop.forest" s with
  | Some _ => s
  | None =>
      fst (createAdmin uuid now
             (InsertAdmin.mk "Forest Admin" "admin@petshop.forest" hashed) s)
  end.

End AuthStore.

(* ===================================================================== *)
(** * Properties                                                           *)
(* ===================================================================== *)

(** ** Slug derivation *)

Example slugify_runs : slugify "  Small   Pets & Co " = "-small-pets--co-".
Proof. reflexivity. Qed.

Example slugify_latin1 :
  slugify ("CAF" +:+ String (ascii_of_N 201) " Noir") = "caf-noir".
Proof. reflexivity. Qed.

Ltac by_char c :=
  destruct c as [[] [] [] [] [] [] [] []]; vm_compute;
  first [reflexivity | discriminate | intros; congruence].

Lemma slugChar_toLowerCase c :
  Js.isSlugChar c = true → Js.toLowerCaseChar c = c.
Proof. by_char c. Qed.

Lemma slugChar_not_whiteSpace c :
  Js.isSlugChar c = true → Js.isWhiteSpace c = false.
Proof. by_char c. Qed.

Lemma stripNonSlug_allSlugChars s :
  Js.allSlugChars (Js.stripNonSlug s) = true.
Proof.
  induction s as [|c s IH]; simpl; [reflexivity|].
  destruct (Js.isSlugChar c) eqn:Hc; simpl; [|exact IH].
  rewrite Hc. exact IH.
Qed.

Lemma allSlugChars_toLowerCase s :
  Js.allSlugChars s = true → Js.toLowerCase s = s.
Proof.
  induction s as [|c s IH]; simpl; [reflexivity|].
  intros [Hc Hs]%andb_true_iff.
  rewrite (slugChar_toLowerCase c Hc), (IH Hs). reflexivity.
Qed.

Lemma allSlugChars_replaceRuns s b :
  Js.allSlugChars s = true → Js.replaceRuns b s = s.
Proof.
  revert b. induction s as [|c s IH]; simpl; intros b; [reflexivity|].
  intros [Hc Hs]%andb_true_iff.
  rewrite (slugChar_not_whiteSpace c Hc), (IH false Hs). reflexivity.
Qed.

Lemma allSlugChars_stripNonSlug s :
  Js.allSlugChars s = true → Js.stripNonSlug s = s.
Proof.
  induction s as [|c s IH]; simpl; [reflexivity|].
  intros [Hc Hs]%andb_true_iff. rewrite Hc, (IH Hs). reflexivity.
Qed.

Lemma slugify_allSlugChars name : Js.allSlugChars (slugify name) = true.
Proof. apply stripNonSlug_allSlugChars. Qed.

Lemma slugify_fixed s : Js.allSlugChars s = true → slugify s = s.
Proof.
  intros Hs. unfold slugify, Js.replaceWhiteSpace.
  rewrite (allSlugChars_toLowerCase s Hs), (allSlugChars_replaceRuns s false Hs).
  apply allSlugChars_stripNonSlug, Hs.
Qed.

Lemma slugify_idempotent name : slugify (slugify name) = slugify name.
Proof. apply slugify_fixed, slugify_allSlugChars. Qed.

(** ** Rounding *)

Lemma round_small z : Z.abs z < 2 ^ 53 → Js.round z = z.
Proof.
  intros H. unfold Js.round. by rewrite (proj2 (Z.ltb_lt _ _) H).
Qed.

Lemma round_nonneg z : 0 ≤ z → 0 ≤ Js.round z.
Proof.
  intros H. unfold Js.round. cbv zeta.
  destruct (Z.abs z <? 2 ^ 53); [done|].
  apply Z.mul_nonneg_nonneg; [by apply Z.sgn_nonneg|].
  apply Z.mul_nonneg_nonneg; [|apply Z.pow_nonneg; lia].
  assert (0 ≤ Z.abs z / 2 ^ (Z.log2 (Z.abs z) - 52))
    by (apply Z_div_nonneg_nonneg; [lia | apply Z.pow_nonneg; lia]).
  destruct (_ || _); lia.
Qed.

(** ** The store: frame and consistency lemmas *)

Lemma set_products_same (s : MemStorage.t) h :
  MemStorage.set_products (MemStorage.products s) (MemStorage.set_heap h s)
  = MemStorage.set_heap h s.
Proof. destruct s; reflexivity. Qed.

Lemma deref_lookup (s : MemStorage.t) l p :
  MemStorage.heap s !! l = Some p → MemStorage.deref s l = p.
Proof. intros H. unfold MemStorage.deref. by apply lookup_total_correct. Qed.

Lemma updateProductStock_found (s : MemStorage.t) k l n :
  MemStorage.products s !! k = Some l →
  MemStorage.updateProductStock k n s
  = (MemStorage.set_heap
       (<[l := Product.set_stock n (MemStorage.deref s l)]> (MemStorage.heap s))
       s, Some l).
Proof.
  intros H. unfold MemStorage.updateProductStock. rewrite H.
  rewrite (insert_id _ _ _ H), set_products_same. reflexivity.
Qed.

Lemma updateProductStock_wf (s : MemStorage.t) k n :
  MemStorage.wf s → MemStorage.wf (fst (MemStorage.updateProductStock k n s)).
Proof.
  intros Hwf. unfold MemStorage.updateProductStock.
  destruct (MemStorage.products s !! k) as [l|] eqn:Hk; [|exact Hwf].
  rewrite (insert_id _ _ _ Hk), set_products_same. simpl.
  intros k' l' Hk'. simpl in Hk'.
  destruct (Hwf _ _ Hk') as (p' & Hp' & Hid').
  destruct (decide (l' = l)) as [->|Hne].
  - exists (Product.set_stock n (MemStorage.deref s l)). simpl.
    rewrite lookup_insert_eq. split; [reflexivity|].
    rewrite (deref_lookup _ _ _ Hp'). exact Hid'.
  - exists p'. simpl. rewrite lookup_insert_ne by congruence. done.
Qed.

Lemma alloc_wf (s : MemStorage.t) id (product : Product.t) :
  MemStorage.wf s →
  Product.id product = id →
  MemStorage.wf
    (MemStorage.set_products
       (<[id := fresh (dom (MemStorage.heap s))]> (MemStorage.products s))
       (MemStorage.set_heap
          (<[fresh (dom (MemStorage.heap s)) := product]> (MemStorage.heap s))
          s)).
Proof.
  intros Hwf Hid k l. simpl. intros Hk.
  destruct (decide (id = k)) as [->|Hne].
  - rewrite lookup_insert_eq in Hk. simplify_eq.
    exists product. by rewrite lookup_insert_eq.
  - rewrite lookup_insert_ne in Hk by done.
    destruct (Hwf _ _ Hk) as (p & Hp & Hidp).
    exists p. split; [|done]. rewrite lookup_insert_ne; [done|].
    intros <-. apply (is_fresh (dom (MemStorage.heap s))).
    apply elem_of_dom. eauto.
Qed.

Lemma createProduct_wf uuid now data (s : MemStorage.t) :
  MemStorage.wf s →
  MemStorage.wf (fst (MemStorage.createProduct uuid now data s)).
Proof. intros Hwf. by apply alloc_wf. Qed.

Lemma updateProduct_wf id u (s : MemStorage.t) :
  MemStorage.wf s → MemStorage.wf (fst (MemStorage.updateProduct id u s)).
Proof.
  intros Hwf. unfold MemStorage.updateProduct.
  destruct (MemStorage.products s !! id) as [l|] eqn:Hl; [|exact Hwf].
  apply alloc_wf; [exact Hwf|]. simpl.
  destruct (Hwf _ _ Hl) as (p & Hp & Hid).
  by rewrite (deref_lookup _ _ _ Hp).
Qed.

Lemma deleteProduct_wf id (s : MemStorage.t) :
  MemStorage.wf s → MemStorage.wf (fst (MemStorage.deleteProduct id s)).
Proof.
  intros Hwf k l. simpl. intros Hk.
  apply lookup_delete_Some in Hk as [_ Hk]. by apply Hwf.
Qed.

Lemma updateProductImages_wf id imgs (s : MemStorage.t) :
  MemStorage.wf s →
  MemStorage.wf (fst (MemStorage.updateProductImages id imgs s)).
Proof.
  intros Hwf. unfold MemStorage.updateProductImages.
  destruct (MemStorage.products s !! id) as [l|] eqn:Hid; [|exact Hwf].
  rewrite (insert_id _ _ _ Hid), set_products_same.
  intros k' l' Hk'. simpl in Hk'.
  destruct (Hwf _ _ Hk') as (p' & Hp' & Hid').
  destruct (decide (l' = l)) as [->|Hne].
  - exists (Product.set_images imgs (MemStorage.deref s l)). simpl.
    rewrite lookup_insert_eq. split; [reflexivity|].
    rewrite (deref_lookup _ _ _ Hp'). exact Hid'.
  - exists p'. simpl. rewrite lookup_insert_ne by congruence. done.
Qed.

Lemma wf_new now : MemStorage.wf (MemStorage.new now).
Proof. intros k l H. simpl in H. by rewrite lookup_empty in H. Qed.

Lemma wfb_wf (st : MemStorage.t) : wfb st = true → MemStorage.wf st.
Proof.
  unfold wfb. intros H%bool_decide_eq_true k l Hk.
  specialize (H k l Hk). simpl in H.
  destruct (MemStorage.heap st !! l) as [p|]; [|done].
  exists p. split; [done|]. simpl in H. congruence.
Qed.

Lemma wf_inj (s : MemStorage.t) k k' l :
  MemStorage.wf s →
  MemStorage.products s !! k = Some l →
  MemStorage.products s !! k' = Some l → k = k'.
Proof.
  intros Hwf H1 H2.
  destruct (Hwf _ _ H1) as (p & Hp & <-).
  destruct (Hwf _ _ H2) as (p' & Hp' & <-). congruence.
Qed.

(** ** The change notifier *)

(** The loop of [broadcastUpdate] over distinct connections: it never
    throws, touches the connection objects only, and appends the message to
    exactly the open connections of the list. *)
Lemma forEach_sendIfOpen message cs srv :
  NoDup cs →
  ∃ so, forEach (sendIfOpen message) cs srv = (set_sockets so srv, Ok tt)
        ∧ ∀ c, so !! c =
               if decide (c ∈ cs ∧ WebSocket.readyState (socket srv c) = OPEN)
               then Some (WebSocket.mk OPEN
                            (WebSocket.received (socket srv c) ++ [message]))
               else sockets srv !! c.
Proof.
  intros Hnd. revert srv.
  induction Hnd as [|x cs Hx Hnd IH]; intros srv.
  - exists (sockets srv). split; [by destruct srv|].
    intros c. case_decide as H; [|done]. destruct H as [H _]. by inversion H.
  - simpl. unfold bind, sendIfOpen at 1.
    destruct (decide (WebSocket.readyState (socket srv x) = OPEN)) as [Ho|Hn].
    + unfold client_send, WebSocket.send. rewrite Ho.
      set (ws := WebSocket.mk OPEN _).
      destruct (IH (set_sockets (<[x:=ws]> (sockets srv)) srv))
        as (so & Hrun & Hso).
      exists so. split; [rewrite Hrun; by destruct srv|].
      intros c. rewrite Hso. unfold socket. simpl.
      destruct (decide (c = x)) as [->|Hcx].
      * rewrite decide_False by tauto.
        rewrite decide_True; [by rewrite lookup_insert_eq|].
        split; [by left | exact Ho].
      * rewrite lookup_total_insert_ne, lookup_insert_ne by done.
        unfold socket in *.
        repeat case_decide; try done.
        -- exfalso. destruct H as [H1 H2]. apply H0. split; [by right | done].
        -- exfalso. destruct H0 as [H1 H2]. apply H. split; [|done].
           apply elem_of_cons in H1 as [?|?]; [done | done].
    + unfold ret.
      destruct (IH srv) as (so & Hrun & Hso).
      exists so. split; [exact Hrun|].
      intros c. rewrite Hso.
      repeat case_decide; try done.
      * exfalso. destruct H as [H1 H2]. apply H0. split; [by right | done].
      * exfalso. destruct H0 as [H1 H2]. apply H. split; [|done].
        apply elem_of_cons in H1 as [->|?]; [done | done].
Qed.

Section Notifier.

Variable JSON_stringify : string → Json → string.

Lemma broadcastUpdate_sockets event data srv :
  ∃ so,
    broadcastUpdate JSON_stringify event data srv
    = (set_sockets so srv, Ok tt)
    ∧ ∀ c, so !! c =
           if decide (c ∈ wsClients srv
                      ∧ WebSocket.readyState (socket srv c) = OPEN)
           then Some (WebSocket.mk OPEN
                        (WebSocket.received (socket srv c)
                           ++ [JSON_stringify event data]))
           else sockets srv !! c.
Proof.
  unfold broadcastUpdate.
  destruct (forEach_sendIfOpen (JSON_stringify event data)
              (elements (wsClients srv)) srv (NoDup_elements _))
    as (so & Hrun & Hso).
  exists so. split; [exact Hrun|].
  intros c. rewrite Hso.
  repeat case_decide; try done.
  - exfalso. apply H0. destruct H as [H1 H2].
    split; [by apply elem_of_elements in H1 | done].
  - exfalso. apply H. destruct H0 as [H1 H2].
    split; [by apply elem_of_elements | done].
Qed.

End Notifier.

(** ** Resolution of product references *)

Lemma existsb_missing (st : MemStorage.t) (ids : list string) :
  existsb (fun p => negb (bool_decide (is_Some p)))
          (map (fun id => MemStorage.getProduct id st) ids) = true
  ↔ ∃ id, id ∈ ids ∧ MemStorage.products st !! id = None.
Proof.
  rewrite existsb_exists. split.
  - intros (p & Hin & Hp). apply in_map_iff in Hin as (id & <- & Hid).
    exists id. split; [by apply list_elem_of_In|].
    unfold MemStorage.getProduct in Hp.
    destruct (MemStorage.products st !! id) eqn:E; [|done].
    rewrite bool_decide_true in Hp by eauto. done.
  - intros (id & Hid & Hnone). exists None. split.
    + apply in_map_iff. exists id. split; [exact Hnone|].
      by apply list_elem_of_In.
    + rewrite bool_decide_false; [done|]. by intros [? ?].
Qed.

Lemma findProduct_resolved (st st' : MemStorage.t) ids k l :
  MemStorage.wf st' →
  MemStorage.products st' = MemStorage.products st →
  MemStorage.products st !! k = Some l →
  k ∈ ids →
  findProduct st' k (map (fun id => MemStorage.getProduct id st) ids)
  = Some l.
Proof.
  intros Hwf Heq Hk. induction ids as [|id ids IH]; intros Hin.
  - by inversion Hin.
  - simpl. unfold MemStorage.getProduct at 1.
    destruct (MemStorage.products st !! id) as [l0|] eqn:Hid.
    + rewrite <- Heq in Hid.
      destruct (Hwf _ _ Hid) as (p0 & Hp0 & Hid0).
      rewrite (deref_lookup _ _ _ Hp0), Hid0.
      case_bool_decide as Hdec.
      * subst id. rewrite Heq in Hid. congruence.
      * apply IH. apply elem_of_cons in Hin as [->|?]; [done | done].
    + apply IH. apply elem_of_cons in Hin as [->|?]; [congruence | done].
Qed.

Lemma findProduct_findById (st : MemStorage.t) k ps l :
  findProduct st k ps = Some l →
  MemStorage.findById st k (omap (fun p => p) ps) = Some l.
Proof.
  unfold MemStorage.findById.
  induction ps as [|[l0|] ps IH]; simpl; intros H; [done| |by apply IH].
  destruct (bool_decide _); [exact H | by apply IH].
Qed.

Lemma findProduct_id (st : MemStorage.t) k ps l :
  findProduct st k ps = Some l → Product.id (MemStorage.deref st l) = k.
Proof.
  induction ps as [|[l0|] ps IH]; simpl; intros H; [done| |by apply IH].
  case_bool_decide as Hd; [by simplify_eq | by apply IH].
Qed.

(** ** The stock check and the stock update *)

Lemma checkStock_first_failure (st : MemStorage.t) ps pre line post l :
  Forall (fun x => ∃ lx, findProduct st (OrderLine.productId x) ps = Some lx
                         ∧ OrderLine.quantity x
                           ≤ Product.stock (MemStorage.deref st lx)) pre →
  findProduct st (OrderLine.productId line) ps = Some l →
  Product.stock (MemStorage.deref st l) < OrderLine.quantity line →
  checkStock st ps (pre ++ line :: post)
  = Some (insufficientStock (Product.name (MemStorage.deref st l))).
Proof.
  intros Hpre Hl Hlt. induction Hpre as [|x pre (lx & Hx & Hle) _ IH]; simpl.
  - rewrite Hl. by rewrite (proj2 (Z.ltb_lt _ _) Hlt).
  - rewrite Hx. by rewrite (proj2 (Z.ltb_ge _ _) Hle).
Qed.

Lemma checkStock_pass (st : MemStorage.t) ps lines :
  checkStock st ps lines = None
  ↔ Forall (fun x => ∃ lx, findProduct st (OrderLine.productId x) ps = Some lx
                           ∧ OrderLine.quantity x
                             ≤ Product.stock (MemStorage.deref st lx)) lines.
Proof.
  induction lines as [|x lines IH]; simpl.
  - split; [by constructor | done].
  - destruct (findProduct st (OrderLine.productId x) ps) as [lx|] eqn:Hx.
    + destruct (Z.ltb_spec (Product.stock (MemStorage.deref st lx))
                  (OrderLine.quantity x)) as [Hlt|Hge].
      * split; [done|]. intros H. inversion H as [|? ? (l' & Hl' & Hq) _]; subst.
        rewrite Hx in Hl'. simplify_eq. lia.
      * rewrite IH. split.
        -- intros H. constructor; [eauto | done].
        -- intros H. by inversion H.
    + split; [done|]. intros H. inversion H as [|? ? (l' & Hl' & _) _]; subst.
      congruence.
Qed.

Lemma set_stock_set_stock a b p :
  Product.set_stock a (Product.set_stock b p) = Product.set_stock a p.
Proof. by destruct p. Qed.

Lemma decrementStock_spec (st0 : MemStorage.t) ids lines :
  ∀ st,
    MemStorage.wf st →
    MemStorage.products st = MemStorage.products st0 →
    Forall (fun x => OrderLine.productId x ∈ ids
                     ∧ is_Some (MemStorage.products st0
                                  !! OrderLine.productId x)) lines →
    let st' :=
      decrementStock (map (fun id => MemStorage.getProduct id st0) ids)
        lines st in
    MemStorage.wf st'
    ∧ MemStorage.products st' = MemStorage.products st
    ∧ MemStorage.orders st' = MemStorage.orders st
    ∧ MemStorage.categories st' = MemStorage.categories st
    ∧ MemStorage.siteSettings st' = MemStorage.siteSettings st
    ∧ (∀ k l, MemStorage.products st !! k = Some l →
              MemStorage.deref st' l
              = Product.set_stock
                  (stockAfterLines k lines
                     (Product.stock (MemStorage.deref st l)))
                  (MemStorage.deref st l))
    ∧ (∀ l, (∀ k, MemStorage.products st !! k ≠ Some l) →
            MemStorage.heap st' !! l = MemStorage.heap st !! l).
Proof.
  induction lines as [|x lines IH]; intros st Hwf Heq Hall; simpl.
  - repeat split; try done.
    intros k l Hk. by destruct (MemStorage.deref st l).
  - inversion Hall as [|? ? (Hin & [l Hl]) Hrest]; subst.
    rewrite (findProduct_resolved st0 st ids _ l Hwf Heq Hl Hin).
    assert (Hl' : MemStorage.products st !! OrderLine.productId x = Some l)
      by (by rewrite Heq).
    destruct (Hwf _ _ Hl') as (p & Hp & Hid).
    rewrite (deref_lookup _ _ _ Hp), Hid.
    rewrite (updateProductStock_found st _ l _ Hl'). simpl.
    rewrite (deref_lookup _ _ _ Hp).
    set (st1 := MemStorage.set_heap _ st).
    assert (Hwf1 : MemStorage.wf st1).
    { pose proof (updateProductStock_wf st (OrderLine.productId x)
                    (Js.sub (Product.stock p) (OrderLine.quantity x)) Hwf)
        as H.
      rewrite (updateProductStock_found st _ l _ Hl') in H. simpl in H.
      by rewrite (deref_lookup _ _ _ Hp) in H. }
    destruct (IH st1 Hwf1 Heq Hrest) as (W & P & O & C & S & D & G).
    repeat split; try done.
    + intros k lk Hk. rewrite (D k lk Hk).
      destruct (decide (lk = l)) as [->|Hne].
      * assert (k = OrderLine.productId x) as ->
          by exact (wf_inj st _ _ _ Hwf Hk Hl').
        unfold stockAfterLines. simpl. rewrite bool_decide_true by done.
        unfold MemStorage.deref at 1 2. simpl. rewrite lookup_total_insert_eq.
        rewrite (deref_lookup _ _ _ Hp), set_stock_set_stock.
        reflexivity.
      * unfold stockAfterLines. simpl.
        rewrite bool_decide_false by (intros <-; congruence).
        unfold MemStorage.deref at 1 2. simpl.
        rewrite lookup_total_insert_ne by done. reflexivity.
    + intros l' Hl'g. rewrite (G l' Hl'g). simpl.
      apply lookup_insert_ne. intros <-. by apply (Hl'g _ Hl').
Qed.

(** ** Order creation in the store *)

Lemma lineTotal_nonneg items :
  Forall (fun item => 0 ≤ OrderItem.priceInINR item
                      ∧ 0 ≤ OrderItem.quantity item) items →
  0 ≤ lineTotal items.
Proof.
  induction 1 as [|i items [Hp Hq] _ IH]; simpl; [done|].
  pose proof (Z.mul_nonneg_nonneg _ _ Hp Hq). lia.
Qed.

(** Without rounding the reduce is the exact sum. *)
Lemma totalOf_lineTotal items :
  exactTotal items → MemStorage.totalOf items = lineTotal items.
Proof.
  intros [Hpos Hlt]. unfold MemStorage.totalOf.
  enough (H : ∀ acc, 0 ≤ acc → acc + lineTotal items < 2 ^ 53 →
             fold_left
               (fun total product =>
                  Js.add total
                    (Js.mul (OrderItem.priceInINR product)
                       (OrderItem.quantity product))) items acc
             = acc + lineTotal items) by (rewrite H; lia).
  clear Hlt. induction Hpos as [|i items [Hp Hq] Hpos IH];
    intros acc Hacc Hlt; simpl in *; [lia|].
  pose proof (Z.mul_nonneg_nonneg _ _ Hp Hq) as Hm.
  pose proof (lineTotal_nonneg items Hpos) as Hrest.
  unfold Js.mul, Js.add.
  rewrite (round_small (_ * _)) by lia.
  rewrite round_small by lia.
  rewrite IH; lia.
Qed.

Lemma orderProducts_items (st : MemStorage.t) ps lines items :
  MemStorage.orderProducts st ps lines = Ok items →
  Forall2 (fun line item =>
             ∃ l, MemStorage.findById st (OrderLine.productId line) ps = Some l
                  ∧ item = OrderItem.mk (OrderLine.productId line)
                             (Product.name (MemStorage.deref st l))
                             (Product.priceInINR (MemStorage.deref st l))
                             (OrderLine.quantity line))
          lines items.
Proof.
  revert items. induction lines as [|x lines IH]; simpl; intros items H.
  - simplify_eq. constructor.
  - destruct (MemStorage.findById st _ ps) as [l|] eqn:Hl; [|done].
    destruct (MemStorage.orderProducts st ps lines) as [items'|]; [|done].
    simplify_eq. constructor; [eauto | by apply IH].
Qed.

Lemma orderProducts_resolved (st : MemStorage.t) ids lines :
  MemStorage.wf st →
  Forall (fun x => OrderLine.productId x ∈ ids
                   ∧ is_Some (MemStorage.products st
                                !! OrderLine.productId x)) lines →
  MemStorage.orderProducts st
    (omap (fun p => p) (map (fun id => MemStorage.getProduct id st) ids)) lines
  = Ok (map (snapshot st) lines).
Proof.
  intros Hwf. induction 1 as [|x lines (Hin & [l Hl]) _ IH]; simpl; [done|].
  pose proof (findProduct_resolved st st ids _ l Hwf eq_refl Hl Hin) as Hf.
  rewrite (findProduct_findById _ _ _ _ Hf), IH.
  unfold snapshot, productOf. by rewrite Hl.
Qed.

Lemma inStock_resolves (st : MemStorage.t) body :
  inStock st body →
  Forall (fun x => OrderLine.productId x
                     ∈ map OrderLine.productId (InsertOrder.products body)
                   ∧ is_Some (MemStorage.products st
                                !! OrderLine.productId x))
         (InsertOrder.products body).
Proof.
  unfold inStock. rewrite !Forall_forall. intros H x Hx.
  destruct (H x Hx) as (l & Hl & _). split; [|eauto].
  apply list_elem_of_fmap. eauto.
Qed.

Lemma inStock_no_missing (st : MemStorage.t) body :
  inStock st body →
  existsb (fun p => negb (bool_decide (is_Some p))) (resolved st body) = false.
Proof.
  intros H. apply not_true_is_false. unfold resolved.
  rewrite existsb_missing. intros (id & Hid & Hnone).
  apply list_elem_of_fmap in Hid as (x & -> & Hx).
  unfold inStock in H. rewrite Forall_forall in H.
  destruct (H x Hx) as (l & Hl & _). congruence.
Qed.

Lemma inStock_checkStock (st : MemStorage.t) body :
  MemStorage.wf st → inStock st body →
  checkStock st (resolved st body) (InsertOrder.products body) = None.
Proof.
  intros Hwf H. apply checkStock_pass.
  pose proof (inStock_resolves st body H) as Hres.
  unfold inStock in H. rewrite Forall_forall in *. intros x Hx.
  destruct (H x Hx) as (l & Hl & Hq). exists l. split; [|done].
  apply (findProduct_resolved st st); try done. by apply Hres.
Qed.

Lemma createOrder_inStock uuid now body (st : MemStorage.t) :
  MemStorage.wf st → inStock st body →
  MemStorage.createOrder uuid now body (omap (fun p => p) (resolved st body)) st
  = Ok (MemStorage.set_orders
          (<[uuid := placedOrder uuid now body st]> (MemStorage.orders st)) st,
        placedOrder uuid now body st).
Proof.
  intros Hwf H. unfold MemStorage.createOrder, resolved.
  rewrite (orderProducts_resolved st _ _ Hwf (inStock_resolves st body H)).
  reflexivity.
Qed.

(** ** The store after an accepted request *)

Lemma wf_set_orders (st : MemStorage.t) o :
  MemStorage.wf st → MemStorage.wf (MemStorage.set_orders o st).
Proof. intros H. exact H. Qed.

Lemma storeAfter_spec uuid now body (st : MemStorage.t) :
  MemStorage.wf st → inStock st body →
  MemStorage.wf (storeAfter uuid now body st)
  ∧ MemStorage.products (storeAfter uuid now body st) = MemStorage.products st
  ∧ MemStorage.orders (storeAfter uuid now body st)
    = <[uuid := placedOrder uuid now body st]> (MemStorage.orders st)
  ∧ MemStorage.categories (storeAfter uuid now body st)
    = MemStorage.categories st
  ∧ MemStorage.siteSettings (storeAfter uuid now body st)
    = MemStorage.siteSettings st
  ∧ ∀ l, MemStorage.heap (storeAfter uuid now body st) !! l
         = decremented st (InsertOrder.products body) l
             <$> MemStorage.heap st !! l.
Proof.
  intros Hwf Hin. unfold storeAfter, resolved.
  set (st1 := MemStorage.set_orders _ st).
  destruct (decrementStock_spec st
              (map OrderLine.productId (InsertOrder.products body))
              (InsertOrder.products body) st1
              (wf_set_orders st _ Hwf) eq_refl (inStock_resolves st body Hin))
    as (W & P & O & C & S & D & G).
  repeat split; try done.
  intros l. unfold decremented.
  destruct (MemStorage.heap st !! l) as [p|] eqn:Hp; simpl.
  - case_decide as Hlive.
    + destruct (W (Product.id p) l) as (p' & Hp' & _); [by rewrite P|].
      rewrite Hp'. f_equal.
      rewrite <- (deref_lookup _ _ _ Hp'), (D _ _ Hlive).
      unfold MemStorage.deref. simpl.
      by rewrite (lookup_total_correct _ _ _ Hp).
    + rewrite G; [done|]. intros k Hk. simpl in Hk.
      destruct (Hwf _ _ Hk) as (p' & Hp' & Hid). by simplify_eq.
  - rewrite G; [done|]. intros k Hk. simpl in Hk.
    destruct (Hwf _ _ Hk) as (p' & Hp' & Hid). by simplify_eq.
Qed.

Lemma stockOf_storeAfter uuid now body (st : MemStorage.t) k :
  MemStorage.wf st → inStock st body →
  stockOf (storeAfter uuid now body st) k
  = stockAfterLines k (InsertOrder.products body) <$> stockOf st k.
Proof.
  intros Hwf Hin.
  destruct (storeAfter_spec uuid now body st Hwf Hin)
    as (W & P & O & C & S & H).
  unfold stockOf. rewrite P.
  destruct (MemStorage.products st !! k) as [l|] eqn:Hk; simpl; [|done].
  destruct (Hwf _ _ Hk) as (p & Hp & Hid).
  pose proof (H l) as Hl. rewrite Hp in Hl. simpl in Hl.
  rewrite (deref_lookup _ _ _ Hl), (deref_lookup _ _ _ Hp).
  unfold decremented. rewrite Hid, decide_True by done. done.
Qed.

(** ** The [available] flag *)









Lemma productOf_lookup (st : MemStorage.t) k l :
  MemStorage.products st !! k = Some l →
  productOf st k = MemStorage.deref st l.
Proof. intros H. unfold productOf. by rewrite H. Qed.

(** ** POST /api/orders *)

Section Orders.

Variable JSON_stringify : string → Json → string.

(** The handler, with the monad unfolded. *)
Lemma postOrders_unfold uuid now body srv :
  postOrders JSON_stringify uuid now body srv =
  if insertOrderSchema body then
    let ps := resolved (storage srv) body in
    if existsb (fun p => negb (bool_decide (is_Some p))) ps
    then (srv, notFound)
    else
      match checkStock (storage srv) ps (InsertOrder.products body) with
      | Some r => (srv, r)
      | None =>
          match MemStorage.createOrder uuid now body (omap (fun p => p) ps)
                  (storage srv) with
          | Throw e =>
              (srv, mkResponse 400 (message_or e "Failed to create order"))
          | Ok (st1, order) =>
              let srv2 :=
                set_storage
                  (decrementStock ps (InsertOrder.products body) st1) srv in
              match broadcastUpdate JSON_stringify "order:created"
                      (JOrder order) srv2 with
              | (srv3, Ok _) => (srv3, mkResponse 201 (JOrder order))
              | (srv3, Throw e) =>
                  (srv3,
                   mkResponse 400 (message_or e "Failed to create order"))
              end
          end
      end
  else (srv, mkResponse 400 JZodIssues).
Proof.
  unfold postOrders, try_catch, postOrders_body, bind, parse, resolved.
  destruct (insertOrderSchema body); [|reflexivity].
  unfold ret at 1, read at 1. cbv zeta.
  destruct (existsb _ _); [reflexivity|].
  unfold read. 
  destruct (checkStock _ _ _); [reflexivity|].
  unfold await_result.
  destruct (MemStorage.createOrder _ _ _ _ _) as [[st1 order]|e];
    [|reflexivity].
  unfold await. simpl.
  destruct (broadcastUpdate _ _ _ _) as [srv3 [[]|e]]; reflexivity.
Qed.

(** A request that fails leaves the whole server state as it was. *)
Lemma postOrders_rejected uuid now body srv :
  status (snd (postOrders JSON_stringify uuid now body srv)) ≠ 201 →
  fst (postOrders JSON_stringify uuid now body srv) = srv.
Proof.
  rewrite postOrders_unfold.
  destruct (insertOrderSchema body); [|done]. cbv zeta.
  destruct (existsb _ _); [done|].
  destruct (checkStock _ _ _); [done|].
  destruct (MemStorage.createOrder _ _ _ _ _) as [[st1 order]|e]; [|done].
  destruct (broadcastUpdate_sockets JSON_stringify "order:created"
              (JOrder order)
              (set_storage
                 (decrementStock (resolved (storage srv) body)
                    (InsertOrder.products body) st1) srv))
    as (so & -> & _).
  simpl. done.
Qed.

Lemma postOrders_missing uuid now body srv :
  insertOrderSchema body = true →
  (∃ line, line ∈ InsertOrder.products body
           ∧ MemStorage.products (storage srv) !! OrderLine.productId line
             = None) →
  postOrders JSON_stringify uuid now body srv = (srv, notFound).
Proof.
  intros Hv (line & Hin & Hnone). rewrite postOrders_unfold, Hv. cbv zeta.
  unfold resolved.
  rewrite (proj2 (existsb_missing (storage srv) _)); [done|].
  exists (OrderLine.productId line). split; [|done].
  apply list_elem_of_fmap. eauto.
Qed.

(** A valid request whose lines are all in stock is accepted. *)
Lemma postOrders_accepted uuid now body srv :
  MemStorage.wf (storage srv) →
  insertOrderSchema body = true →
  inStock (storage srv) body →
  ∃ so,
    postOrders JSON_stringify uuid now body srv
    = (mkServer (storeAfter uuid now body (storage srv)) so (wsClients srv),
       mkResponse 201 (JOrder (placedOrder uuid now body (storage srv))))
    ∧ ∀ c, so !! c =
           if decide (c ∈ wsClients srv
                      ∧ WebSocket.readyState (socket srv c) = OPEN)
           then Some (WebSocket.mk OPEN
                        (WebSocket.received (socket srv c)
                           ++ [JSON_stringify "order:created"
                                 (JOrder (placedOrder uuid now body
                                            (storage srv)))]))
           else sockets srv !! c.
Proof.
  intros Hwf Hv Hin. rewrite postOrders_unfold, Hv. cbv zeta.
  rewrite (inStock_no_missing _ _ Hin), (inStock_checkStock _ _ Hwf Hin).
  rewrite (createOrder_inStock uuid now body _ Hwf Hin).
  fold (storeAfter uuid now body (storage srv)).
  destruct (broadcastUpdate_sockets JSON_stringify "order:created"
              (JOrder (placedOrder uuid now body (storage srv)))
              (set_storage (storeAfter uuid now body (storage srv)) srv))
    as (so & -> & Hso).
  exists so. split; [reflexivity|]. exact Hso.
Qed.

(** With every product found, the first line that asks for more than
    the stock of its product decides the answer. *)
Lemma postOrders_first_violation uuid now body srv pre line post :
  insertOrderSchema body = true →
  MemStorage.wf (storage srv) →
  InsertOrder.products body = (pre ++ line :: post)%list →
  (∀ x, x ∈ InsertOrder.products body →
        is_Some (MemStorage.getProduct (OrderLine.productId x)
                   (storage srv))) →
  Forall (fun x => OrderLine.quantity x
                   ≤ Product.stock
                       (productOf (storage srv) (OrderLine.productId x)))
         pre →
  Product.stock (productOf (storage srv) (OrderLine.productId line))
  < OrderLine.quantity line →
  postOrders JSON_stringify uuid now body srv
  = (srv,
     insufficientStock
       (Product.name (productOf (storage srv) (OrderLine.productId line)))).
Proof.
  intros Hv Hwf Hsplit Hall Hpre Hlt.
  rewrite postOrders_unfold, Hv. cbv zeta.
  set (st := storage srv) in *.
  assert (Hres : ∀ x, x ∈ InsertOrder.products body →
            ∃ l, MemStorage.products st !! OrderLine.productId x = Some l
                 ∧ findProduct st (OrderLine.productId x) (resolved st body)
                   = Some l).
  { intros x Hx. destruct (Hall x Hx) as [l Hl]. exists l.
    split; [exact Hl|].
    apply (findProduct_resolved st st); try done.
    apply list_elem_of_fmap. eauto. }
  assert (Hno : existsb (fun p => negb (bool_decide (is_Some p)))
                  (resolved st body) = false).
  { apply not_true_is_false. unfold resolved.
    rewrite existsb_missing. intros (id & Hid & Hnone).
    apply list_elem_of_fmap in Hid as (x & -> & Hx).
    destruct (Hall x Hx) as [l Hl].
    unfold MemStorage.getProduct in Hl. congruence. }
  rewrite Hno, Hsplit.
  destruct (Hres line) as (l & Hl & Hf).
  { rewrite Hsplit. apply elem_of_app. right. by left. }
  rewrite (productOf_lookup _ _ _ Hl) in *.
  rewrite (checkStock_first_failure st _ pre line post l); [done| |done|done].
  rewrite Forall_forall in *. intros x Hx.
  destruct (Hres x) as (lx & Hlx & Hfx).
  { rewrite Hsplit. apply elem_of_app. by left. }
  exists lx. split; [done|].
  specialize (Hpre x Hx). by rewrite (productOf_lookup _ _ _ Hlx) in Hpre.
Qed.

(** A created order means a valid request with every line in stock. *)
Lemma postOrders_created_inStock uuid now body srv :
  MemStorage.wf (storage srv) →
  status (snd (postOrders JSON_stringify uuid now body srv)) = 201 →
  insertOrderSchema body = true ∧ inStock (storage srv) body.
Proof.
  intros Hwf. rewrite postOrders_unfold.
  destruct (insertOrderSchema body); [|done]. cbv zeta.
  destruct (existsb _ _) eqn:Hex; [done|].
  destruct (checkStock _ _ _) as [resp|] eqn:Hck.
  - simpl. intros H201. exfalso. revert Hck H201.
    generalize (resolved (storage srv) body).
    induction (InsertOrder.products body) as [|x lines IH]; simpl;
      intros ps Hck H201; [done|].
    destruct (findProduct _ _ ps); [|by simplify_eq].
    destruct (_ <? _); [by simplify_eq | by eapply IH].
  - intros _. split; [done|].
    apply checkStock_pass in Hck. unfold inStock.
    rewrite Forall_forall in *. intros x Hx.
    destruct (Hck x Hx) as (lx & Hlx & Hq).
    destruct (MemStorage.products (storage srv) !! OrderLine.productId x)
      as [l|] eqn:Hl.
    + exists l. split; [done|].
      assert (Hf : findProduct (storage srv) (OrderLine.productId x)
                     (resolved (storage srv) body) = Some l).
      { apply (findProduct_resolved (storage srv) (storage srv)); try done.
        apply list_elem_of_fmap. eauto. }
      congruence.
    + exfalso. apply not_true_iff_false in Hex. apply Hex.
      unfold resolved. apply existsb_missing.
      exists (OrderLine.productId x). split; [|done].
      apply list_elem_of_fmap. eauto.
Qed.

End Orders.

Example sample_wf : MemStorage.wf Sample.store.
Proof. apply wfb_wf. vm_compute. reflexivity. Qed.

(** ** Stock stays non-negative when the lines name distinct products *)

Lemma stockAfterLines_absent k lines s :
  k ∉ map OrderLine.productId lines → stockAfterLines k lines s = s.
Proof.
  unfold stockAfterLines. revert s.
  induction lines as [|x lines IH]; simpl; intros s H; [done|].
  apply not_elem_of_cons in H as [Hne Hrest].
  rewrite bool_decide_false by congruence. by apply IH.
Qed.

Lemma stockAfterLines_distinct (st : MemStorage.t) k s lines :
  NoDup (map OrderLine.productId lines) →
  Forall (fun line =>
            ∃ l, MemStorage.products st !! OrderLine.productId line = Some l
                 ∧ OrderLine.quantity line
                   ≤ Product.stock (MemStorage.deref st l)) lines →
  stockOf st k = Some s → 0 ≤ s →
  0 ≤ stockAfterLines k lines s.
Proof.
  intros Hnd Hall Hs Hpos.
  induction Hall as [|x lines (l & Hl & Hq) _ IH]; [done|].
  apply NoDup_cons in Hnd as [Hx Hnd].
  change (0 ≤ stockAfterLines k lines
                (if bool_decide (OrderLine.productId x = k)
                 then Js.sub s (OrderLine.quantity x) else s)).
  case_bool_decide as Hk.
  - subst k. rewrite (stockAfterLines_absent _ _ _ Hx).
    unfold stockOf in Hs. rewrite Hl in Hs. simpl in Hs. simplify_eq.
    apply round_nonneg. lia.
  - by apply IH.
Qed.

Section Sequences.

Variable JSON_stringify : string → Json → string.

Lemma postOrders_wf uuid now body srv :
  MemStorage.wf (storage srv) →
  MemStorage.wf (storage (fst (postOrders JSON_stringify uuid now body srv))).
Proof.
  intros Hwf.
  destruct (decide (status (snd (postOrders JSON_stringify uuid now body srv))
                    = 201)) as [H201|Hn].
  - destruct (postOrders_created_inStock _ _ _ _ _ Hwf H201) as [Hv Hin].
    destruct (postOrders_accepted JSON_stringify uuid now body srv
                Hwf Hv Hin) as (so & -> & _).
    simpl. by apply storeAfter_spec.
  - by rewrite (postOrders_rejected _ _ _ _ _ Hn).
Qed.

Lemma postOrders_distinct_nonNegative uuid now body srv :
  MemStorage.wf (storage srv) →
  nonNegativeStock (storage srv) →
  distinctProducts body →
  nonNegativeStock
    (storage (fst (postOrders JSON_stringify uuid now body srv))).
Proof.
  intros Hwf Hpos Hnd.
  destruct (decide (status (snd (postOrders JSON_stringify uuid now body srv))
                    = 201)) as [H201|Hn].
  - destruct (postOrders_created_inStock _ _ _ _ _ Hwf H201) as [Hv Hin].
    destruct (postOrders_accepted JSON_stringify uuid now body srv
                Hwf Hv Hin) as (so & -> & _).
    simpl. intros k s. rewrite (stockOf_storeAfter _ _ _ _ _ Hwf Hin).
    destruct (stockOf (storage srv) k) as [s0|] eqn:Hs0; simpl; [|done].
    intros [= <-].
    exact (stockAfterLines_distinct _ k s0 _ Hnd Hin Hs0 (Hpos _ _ Hs0)).
  - by rewrite (postOrders_rejected _ _ _ _ _ Hn).
Qed.

Lemma placeOrders_distinct_nonNegative requests srv :
  MemStorage.wf (storage srv) →
  nonNegativeStock (storage srv) →
  Forall (fun request => distinctProducts (snd request)) requests →
  nonNegativeStock (storage (placeOrders JSON_stringify requests srv)).
Proof.
  intros Hwf Hpos Hall. revert srv Hwf Hpos.
  induction Hall as [|[[uuid now] body] requests Hd _ IH];
    intros srv Hwf Hpos; simpl; [done|].
  apply IH; [by apply postOrders_wf|].
  by apply postOrders_distinct_nonNegative.
Qed.

End Sequences.

(** C1. On the sample store, where the macaw has a stock of 2, the valid
    request with two lines of 2 macaws each passes the stock check of both
    lines, is answered 201, and leaves the macaw with a stock of -2. *)
Theorem postOrders_repeated_product_negative_stock
    (JSON_stringify : string → Json → string) :
  let body := Sample.order [OrderLine.mk "p1" 2; OrderLine.mk "p1" 2] in
  let r := postOrders JSON_stringify "o1" 5 body Sample.server in
  MemStorage.wf Sample.store
  ∧ nonNegativeStock Sample.store
  ∧ stockOf Sample.store "p1" = Some 2
  ∧ insertOrderSchema body = true
  ∧ checkStock Sample.store (resolved Sample.store body)
      (InsertOrder.products body) = None
  ∧ status (snd r) = 201
  ∧ stockOf (storage (fst r)) "p1" = Some (-2)
  ∧ ¬ nonNegativeStock (storage (fst r)).
Proof.
  intros body r.
  assert (Hin : inStock Sample.store body).
  { repeat constructor; exists 0%nat; split; by vm_compute. }
  destruct (postOrders_accepted JSON_stringify "o1" 5 body Sample.server
              sample_wf eq_refl Hin) as (so & Hr & _).
  assert (Hneg : stockOf (storage (fst r)) "p1" = Some (-2)).
  { unfold r. rewrite Hr. simpl.
    rewrite (stockOf_storeAfter _ _ _ _ _ sample_wf Hin). by vm_compute. }
  split; [exact sample_wf|]. split.
  { assert (Hall : map_Forall
                     (fun _ l =>
                        0 ≤ Product.stock (MemStorage.deref Sample.store l))
                     (MemStorage.products Sample.store)).
    { apply (bool_decide_unpack _). vm_compute. exact I. }
    intros k s. unfold stockOf.
    destruct (MemStorage.products Sample.store !! k) as [l|] eqn:Hk;
      simpl; [|done].
    intros [= <-]. exact (Hall k l Hk). }
  split; [by vm_compute|]. split; [done|]. split.
  { by apply inStock_checkStock; [exact sample_wf|]. }
  split; [unfold r; by rewrite Hr|]. split; [exact Hneg|].
  intros Hpos. specialize (Hpos _ _ Hneg). lia.
Qed.

(** C3. An order request with a product id that is not in the catalog is
    answered with the not-found failure; a request whose products all exist
    is answered, at the first line that asks for more than the stock of its
    product, with the insufficient-stock failure naming that product; and
    whenever the answer is not the 201 of a created order, the server state
    (orders, products, stock and all the rest) is what it was before. *)
Theorem postOrders_failure_leaves_state
    (JSON_stringify : string → Json → string)
    (uuid : string) (now : Z) (body : InsertOrder.t) (srv : Server) :
  let st := storage srv in
  let r := postOrders JSON_stringify uuid now body srv in
  (insertOrderSchema body = true →
   (∃ line, line ∈ InsertOrder.products body
            ∧ MemStorage.getProduct (OrderLine.productId line) st = None) →
   r = (srv, notFound))
  ∧ (insertOrderSchema body = true →
     MemStorage.wf st →
     ∀ pre line post,
       InsertOrder.products body = (pre ++ line :: post)%list →
       (∀ x, x ∈ InsertOrder.products body →
             is_Some (MemStorage.getProduct (OrderLine.productId x) st)) →
       Forall (fun x => OrderLine.quantity x
                        ≤ Product.stock (productOf st (OrderLine.productId x)))
              pre →
       Product.stock (productOf st (OrderLine.productId line))
       < OrderLine.quantity line →
       r = (srv,
            insufficientStock
              (Product.name (productOf st (OrderLine.productId line)))))
  ∧ (status (snd r) ≠ 201 → fst r = srv).
Proof.
  intros st r. split; [|split].
  - intros Hv Hmiss. by apply postOrders_missing.
  - intros Hv Hwf pre line post Hsplit Hall Hpre Hlt.
    by apply postOrders_first_violation with pre post.
  - apply postOrders_rejected.
Qed.

Lemma postOrders_failure_leaves_state_witness :
  postOrders Sample.stringify "o1" 5
    (Sample.order [OrderLine.mk "p2" 11; OrderLine.mk "zz" 1]) Sample.server
  = (Sample.server, notFound)
  ∧ postOrders Sample.stringify "o1" 5
      (Sample.order [OrderLine.mk "p2" 10; OrderLine.mk "p1" 3;
                     OrderLine.mk "p2" 99]) Sample.server
    = (Sample.server, insufficientStock "Macaw")
  ∧ fst (postOrders Sample.stringify "o1" 5 (Sample.order []) Sample.server)
    = Sample.server.
Proof.
  split; [|split].
  - apply (proj1 (postOrders_failure_leaves_state Sample.stringify "o1" 5
                    (Sample.order [OrderLine.mk "p2" 11; OrderLine.mk "zz" 1])
                    Sample.server)).
    + vm_compute. reflexivity.
    + exists (OrderLine.mk "zz" 1). split; [|vm_compute; reflexivity].
      right. left.
  - apply (proj1 (proj2 (postOrders_failure_leaves_state Sample.stringify
                           "o1" 5
                           (Sample.order [OrderLine.mk "p2" 10;
                                          OrderLine.mk "p1" 3;
                                          OrderLine.mk "p2" 99])
                           Sample.server))
             eq_refl (wfb_wf Sample.store eq_refl)
             [OrderLine.mk "p2" 10] (OrderLine.mk "p1" 3)
             [OrderLine.mk "p2" 99] eq_refl).
    + intros x Hx. vm_compute in Hx.
      repeat (apply elem_of_cons in Hx as [->|Hx]; [by vm_compute; eexists|]).
      by apply elem_of_nil in Hx.
    + constructor; [vm_compute; discriminate | constructor].
    + vm_compute. reflexivity.
  - apply (proj2 (proj2 (postOrders_failure_leaves_state Sample.stringify
                           "o1" 5 (Sample.order []) Sample.server))).
    vm_compute. discriminate.
Defined.


(** C6. In a catalog where the product P has a stock of 2, a valid order
    for 2 of P is created with P as its line item and stored; the stock of
    P read from the store is then 0, every registered subscriber with an
    open channel has received the order:created message carrying the
    order, and a following order for 1 of P fails with the
    insufficient-stock answer naming P and changes nothing. *)
Theorem order_scenario_stock_two
    (JSON_stringify : string → Json → string)
    (srv : Server) (pid : string) (l : loc) (P : Product.t)
    (customer : Customer.t) (uuid1 uuid2 : string) (now1 now2 : Z) :
  MemStorage.wf (storage srv) →
  MemStorage.getProduct pid (storage srv) = Some l →
  MemStorage.heap (storage srv) !! l = Some P →
  Product.stock P = 2 →
  insertOrderSchema (InsertOrder.mk [OrderLine.mk pid 2] customer) = true →
  let first :=
    postOrders JSON_stringify uuid1 now1
      (InsertOrder.mk [OrderLine.mk pid 2] customer) srv in
  let second :=
    postOrders JSON_stringify uuid2 now2
      (InsertOrder.mk [OrderLine.mk pid 1] customer) (fst first) in
  ∃ order,
    snd first = mkResponse 201 (JOrder order)
    ∧ Order.products order
      = [OrderItem.mk pid (Product.name P) (Product.priceInINR P) 2]
    ∧ MemStorage.getOrder uuid1 (storage (fst first)) = Some order
    ∧ stockOf (storage (fst first)) pid = Some 0
    ∧ (∀ c, c ∈ wsClients srv →
            WebSocket.readyState (socket srv c) = OPEN →
            socket (fst first) c
            = WebSocket.mk OPEN
                (WebSocket.received (socket srv c)
                   ++ [JSON_stringify "order:created" (JOrder order)]))
    ∧ second = (fst first, insufficientStock (Product.name P)).
Proof.
  intros Hwf Hl HP Hstock Hv first second.
  set (body := InsertOrder.mk [OrderLine.mk pid 2] customer) in *.
  unfold MemStorage.getProduct in Hl.
  assert (Hin : inStock (storage srv) body).
  { constructor; [|constructor]. exists l. split; [exact Hl|].
    rewrite (deref_lookup _ _ _ HP). simpl. lia. }
  destruct (postOrders_accepted JSON_stringify uuid1 now1 body srv Hwf Hv Hin)
    as (so & Hr & Hso).
  destruct (storeAfter_spec uuid1 now1 body _ Hwf Hin)
    as (W & Pm & O & C & S & H).
  assert (Hstock1 : stockOf (storeAfter uuid1 now1 body (storage srv)) pid
                    = Some 0).
  { rewrite (stockOf_storeAfter _ _ _ _ _ Hwf Hin). unfold stockOf.
    rewrite Hl. simpl. rewrite (deref_lookup _ _ _ HP), Hstock.
    unfold stockAfterLines. simpl.
    rewrite bool_decide_true by done. done. }
  assert (Hdef : productOf (storeAfter uuid1 now1 body (storage srv)) pid
                 = Product.set_stock 0 P).
  { unfold productOf. rewrite Pm, Hl.
    apply deref_lookup. rewrite H, HP. simpl. unfold decremented.
    destruct (Hwf _ _ Hl) as (p' & Hp' & Hid). simplify_eq.
    rewrite decide_True by done. unfold stockAfterLines. simpl.
    rewrite bool_decide_true by done. rewrite Hstock. done. }
  exists (placedOrder uuid1 now1 body (storage srv)).
  subst second. subst first. rewrite Hr. simpl.
  split; [done|]. split.
  { unfold snapshot, productOf. simpl. rewrite Hl.
    by rewrite (deref_lookup _ _ _ HP). }
  split. { unfold MemStorage.getOrder. rewrite O. apply lookup_insert_eq. }
  split; [exact Hstock1|]. split.
  { intros c Hc Hopen. unfold socket at 1. simpl.
    apply lookup_total_correct. rewrite Hso. by rewrite decide_True. }
  rewrite (postOrders_first_violation JSON_stringify uuid2 now2
             (InsertOrder.mk [OrderLine.mk pid 1] customer) _
             [] (OrderLine.mk pid 1) []); simpl.
  - by rewrite Hdef.
  - unfold insertOrderSchema in *. simpl in *. exact Hv.
  - exact W.
  - done.
  - intros x Hx. apply list_elem_of_singleton in Hx as ->. simpl.
    unfold MemStorage.getProduct. rewrite Pm. eauto.
  - constructor.
  - rewrite Hdef. simpl. lia.
Qed.


Lemma order_scenario_stock_two_witness :
  let first :=
    postOrders Sample.stringify "o1" 5
      (InsertOrder.mk [OrderLine.mk "p1" 2] Sample.customer) Sample.server in
  let second :=
    postOrders Sample.stringify "o2" 6
      (InsertOrder.mk [OrderLine.mk "p1" 1] Sample.customer) (fst first) in
  ∃ order,
    snd first = mkResponse 201 (JOrder order)
    ∧ Order.products order = [OrderItem.mk "p1" "Macaw" 4500 2]
    ∧ MemStorage.getOrder "o1" (storage (fst first)) = Some order
    ∧ stockOf (storage (fst first)) "p1" = Some 0
    ∧ (∀ c, c ∈ wsClients Sample.server →
            WebSocket.readyState (socket Sample.server c) = OPEN →
            socket (fst first) c
            = WebSocket.mk OPEN
                (WebSocket.received (socket Sample.server c)
                   ++ [Sample.stringify "order:created" (JOrder order)]))
    ∧ second = (fst first, insufficientStock "Macaw").
Proof.
  apply (order_scenario_stock_two Sample.stringify Sample.server "p1" 0%nat
           (productOf Sample.store "p1") Sample.customer "o1" "o2" 5 6).
  - apply wfb_wf. vm_compute. reflexivity.
  - vm_compute. reflexivity.
  - vm_compute. reflexivity.
  - vm_compute. reflexivity.
  - vm_compute. reflexivity.
Defined.

(** ** PUT /api/admin/orders/:id/status *)

Lemma includes_statusName s : includes_status (statusName s) = Some s.
Proof. by destruct s. Qed.

Section OrderStatus.

Variable JSON_stringify : string → Json → string.

Lemma putOrderStatus_found id requested srv o :
  MemStorage.getOrder id (storage srv) = Some o →
  ∃ so,
    putOrderStatus JSON_stringify true id (statusName requested) srv
    = (mkServer
         (MemStorage.set_orders
            (<[id := Order.set_status requested o]>
               (MemStorage.orders (storage srv))) (storage srv))
         so (wsClients srv),
       mkResponse 200 (JOrder (Order.set_status requested o))).
Proof.
  intros Ho. unfold MemStorage.getOrder in Ho.
  unfold putOrderStatus, requireAdmin, try_catch. simpl.
  rewrite includes_statusName.
  unfold bind, await, MemStorage.updateOrderStatus. rewrite Ho.
  destruct (broadcastUpdate_sockets JSON_stringify "order:updated"
              (JOrder (Order.set_status requested o))
              (set_storage
                 (MemStorage.set_orders
                    (<[id := Order.set_status requested o]>
                       (MemStorage.orders (storage srv))) (storage srv))
                 srv)) as (so & -> & _).
  exists so. reflexivity.
Qed.

Lemma putOrderStatus_invalid id status srv :
  includes_status status = None →
  putOrderStatus JSON_stringify true id status srv
  = (srv, mkResponse 400 (JMessage "Invalid status")).
Proof.
  intros H. unfold putOrderStatus, requireAdmin, try_catch. simpl.
  by rewrite H.
Qed.

Lemma putOrderStatus_unknown id requested srv :
  MemStorage.getOrder id (storage srv) = None →
  putOrderStatus JSON_stringify true id (statusName requested) srv
  = (srv, mkResponse 404 (JMessage "Order not found")).
Proof.
  intros Ho. unfold MemStorage.getOrder in Ho.
  unfold putOrderStatus, requireAdmin, try_catch. simpl.
  rewrite includes_statusName.
  unfold bind, await, MemStorage.updateOrderStatus. rewrite Ho.
  by destruct srv.
Qed.

End OrderStatus.

(** C2, as the code has it. For an authenticated admin, a stored order and
    any of the three status values, the update is accepted whatever the
    current status of the order is: the answer is 200 with the order, whose
    status is the requested one and whose line items and total are as
    before; the other orders and the products with their stock are
    untouched. A status outside the three values is answered 400, an id
    with no order 404, and a request without admin session 401, each with
    the server state unchanged. *)
Theorem putOrderStatus_sets_any_status
    (JSON_stringify : string → Json → string) (id : string) (srv : Server) :
  (∀ requested o,
     MemStorage.getOrder id (storage srv) = Some o →
     let r := putOrderStatus JSON_stringify true id (statusName requested) srv in
     let o' := Order.set_status requested o in
     snd r = mkResponse 200 (JOrder o')
     ∧ MemStorage.getOrder id (storage (fst r)) = Some o'
     ∧ Order.status o' = requested
     ∧ Order.products o' = Order.products o
     ∧ Order.totalAmountINR o' = Order.totalAmountINR o
     ∧ (∀ id', id' ≠ id →
               MemStorage.getOrder id' (storage (fst r))
               = MemStorage.getOrder id' (storage srv))
     ∧ MemStorage.products (storage (fst r)) = MemStorage.products (storage srv)
     ∧ MemStorage.heap (storage (fst r)) = MemStorage.heap (storage srv))
  ∧ (∀ status, includes_status status = None →
               putOrderStatus JSON_stringify true id status srv
               = (srv, mkResponse 400 (JMessage "Invalid status")))
  ∧ (∀ requested,
       MemStorage.getOrder id (storage srv) = None →
       putOrderStatus JSON_stringify true id (statusName requested) srv
       = (srv, mkResponse 404 (JMessage "Order not found")))
  ∧ (∀ status,
       putOrderStatus JSON_stringify false id status srv
       = (srv, mkResponse 401 (JMessage "Authentication required"))).
Proof.
  split; [|split; [|split]].
  - intros requested o Ho r o'.
    destruct (putOrderStatus_found JSON_stringify id requested srv o Ho)
      as (so & Hr).
    unfold r. rewrite Hr. simpl. unfold MemStorage.getOrder. simpl.
    repeat split.
    + apply lookup_insert_eq.
    + intros id' Hne. by apply lookup_insert_ne.
  - intros status H. by apply putOrderStatus_invalid.
  - intros requested H. by apply putOrderStatus_unknown.
  - reflexivity.
Qed.

(** C2, counterexample. On the sample server the order o1 is completed and
    completed -> pending is not an allowed transition; the request to make
    it pending is answered 200 all the same and the stored status becomes
    pending. *)
Lemma putOrderStatus_completed_to_pending :
  let srv := Sample.completedServer in
  let r := putOrderStatus Sample.stringify true "o1" "pending" srv in
  Order.status <$> MemStorage.getOrder "o1" (storage srv) = Some completed
  ∧ allowedTransition completed pending = false
  ∧ status (snd r) = 200
  ∧ Order.status <$> MemStorage.getOrder "o1" (storage (fst r)) = Some pending.
Proof. vm_compute. repeat split. Qed.

(** ** Orders keep their snapshot *)

Lemma updateProduct_orders id u (s : MemStorage.t) :
  MemStorage.orders (fst (MemStorage.updateProduct id u s))
  = MemStorage.orders s.
Proof.
  unfold MemStorage.updateProduct.
  by destruct (MemStorage.products s !! id).
Qed.

Lemma updateProducts_orders us (s : MemStorage.t) :
  MemStorage.orders (updateProducts us s) = MemStorage.orders s.
Proof.
  unfold updateProducts. revert s.
  induction us as [|u us IH]; intros s; simpl; [done|].
  by rewrite IH, updateProduct_orders.
Qed.

Lemma findById_Some (s : MemStorage.t) k ps l :
  MemStorage.findById s k ps = Some l →
  l ∈ ps ∧ Product.id (MemStorage.deref s l) = k.
Proof.
  unfold MemStorage.findById. intros H. apply find_some in H as [Hin Hb].
  split; [by apply list_elem_of_In|]. by apply bool_decide_eq_true in Hb.
Qed.

(** C4, counterexample. The total is computed in double precision: with a
    product priced 9007199254740991 (2^53 - 1) an order for 3 of it is
    created with the total 27021597764222972, while the sum of price times
    quantity over its one line item is 27021597764222973. *)
Lemma createOrder_total_rounds :
  let body := Sample.order [OrderLine.mk "p9" 3] in
  ∃ s' o,
    MemStorage.createOrder "o1" 2 body [0%nat] Sample.dearStore = Ok (s', o)
    ∧ Order.products o = [OrderItem.mk "p9" "Gold cage" 9007199254740991 3]
    ∧ lineTotal (Order.products o) = 27021597764222973
    ∧ Order.totalAmountINR o = 27021597764222972
    ∧ Order.totalAmountINR o ≠ lineTotal (Order.products o).
Proof.
  intros body.
  exists (MemStorage.set_orders
            (<["o1" := placedOrder "o1" 2 body Sample.dearStore]>
               (MemStorage.orders Sample.dearStore)) Sample.dearStore),
         (placedOrder "o1" 2 body Sample.dearStore).
  split; [vm_compute; reflexivity|].
  split; [vm_compute; reflexivity|].
  split; [vm_compute; reflexivity|].
  split; [vm_compute; reflexivity|].
  vm_compute. discriminate.
Qed.

(** C4, amended. The order that [createOrder] returns and stores has one
    line item per requested line, in order, with the requested product id
    and quantity and with the name and the price of the product resolved
    for it, as they are at that moment; its total is the left-to-right
    double-precision sum of the rounded products price times quantity of
    these line items, [MemStorage.totalOf], which is the exact sum of price
    times quantity whenever the prices and quantities are non-negative
    integers and that sum is below 2^53; and after any sequence of later
    product updates the stored orders, this one with its line items and
    total among them, are the same. *)
Theorem createOrder_total_is_snapshot_sum
    (uuid : string) (now : Z) (insertOrder : InsertOrder.t)
    (ps : list loc) (s s' : MemStorage.t) (o : Order.t) :
  MemStorage.createOrder uuid now insertOrder ps s = Ok (s', o) →
  Order.totalAmountINR o = MemStorage.totalOf (Order.products o)
  ∧ (exactTotal (Order.products o) →
     Order.totalAmountINR o = lineTotal (Order.products o))
  ∧ Forall2
      (fun line item =>
         OrderItem.productId item = OrderLine.productId line
         ∧ OrderItem.quantity item = OrderLine.quantity line
         ∧ ∃ l, l ∈ ps
                ∧ Product.id (MemStorage.deref s l) = OrderLine.productId line
                ∧ OrderItem.name item = Product.name (MemStorage.deref s l)
                ∧ OrderItem.priceInINR item
                  = Product.priceInINR (MemStorage.deref s l))
      (InsertOrder.products insertOrder) (Order.products o)
  ∧ MemStorage.getOrder uuid s' = Some o
  ∧ ∀ updates,
      MemStorage.orders (updateProducts updates s') = MemStorage.orders s'
      ∧ MemStorage.getOrder uuid (updateProducts updates s') = Some o.
Proof.
  unfold MemStorage.createOrder.
  destruct (MemStorage.orderProducts s ps (InsertOrder.products insertOrder))
    as [items|e] eqn:Hitems; [|done].
  intros [= <- <-]. simpl.
  split; [done|]. split; [apply totalOf_lineTotal|]. split.
  { eapply Forall2_impl; [exact (orderProducts_items _ _ _ _ Hitems)|].
    intros line item (l & Hl & ->). simpl.
    destruct (findById_Some _ _ _ _ Hl) as [Hin Hid].
    repeat split. exists l. done. }
  split; [apply lookup_insert_eq|].
  intros updates. unfold MemStorage.getOrder.
  rewrite updateProducts_orders. simpl.
  split; [done | apply lookup_insert_eq].
Qed.

Lemma createOrder_total_is_snapshot_sum_witness :
  let body := Sample.order [OrderLine.mk "p1" 1; OrderLine.mk "p2" 3] in
  let o := placedOrder "o1" 9 body Sample.store in
  Order.totalAmountINR o = 5400
  ∧ exactTotal (Order.products o)
  ∧ Order.totalAmountINR o = lineTotal (Order.products o)
  ∧ MemStorage.getOrder "o1"
      (updateProducts
         [("p1", PartialInsertProduct.mk (Some "Scarlet macaw") None None None
                   None (Some 9900) None None)]
         (MemStorage.set_orders
            (<["o1" := o]> (MemStorage.orders Sample.store)) Sample.store))
    = Some o.
Proof.
  intros body o.
  destruct (createOrder_total_is_snapshot_sum "o1" 9 body [0%nat; 1%nat]
              Sample.store
              (MemStorage.set_orders
                 (<["o1" := o]> (MemStorage.orders Sample.store)) Sample.store)
              o) as (_ & Ht & _ & _ & Hu).
  - vm_compute. reflexivity.
  - assert (He : exactTotal (Order.products o)).
    { split; [|vm_compute; reflexivity].
      repeat constructor; vm_compute; discriminate. }
    split; [vm_compute; reflexivity|]. split; [exact He|].
    split; [exact (Ht He)|]. exact (proj2 (Hu _)).
Defined.

(** ** Categories *)

Lemma schema_name_truthy (c : InsertCategory.t) :
  insertCategorySchema c = true →
  MemStorage.truthy (Some (InsertCategory.name c)) = true.
Proof.
  unfold insertCategorySchema. simpl.
  by destruct (InsertCategory.name c).
Qed.

(** C5. The slug is the function [slugify] of the name: lower case, then
    one hyphen for each run of white space, then only the characters a-z,
    0-9 and hyphen kept. [createCategory] stores this slug of the given
    name; [updateCategory] stores it whenever it is given a name that
    passes the category schema, and keeps the old slug when no name is
    given. The slug of "Exotic Birds!" is "exotic-birds", and the slug of a
    slug is that slug. *)
Theorem category_slug_derivation :
  (∀ name,
     slugify name
     = Js.stripNonSlug (Js.replaceWhiteSpace (Js.toLowerCase name)))
  ∧ (∀ uuid now data s,
       let r := MemStorage.createCategory uuid now data s in
       Category.slug (snd r) = slugify (InsertCategory.name data)
       ∧ Category.name (snd r) = InsertCategory.name data
       ∧ MemStorage.getCategory uuid (fst r) = Some (snd r))
  ∧ (∀ id data s c,
       MemStorage.getCategory id s = Some c →
       insertCategorySchema data = true →
       ∃ c',
         MemStorage.updateCategory id (asPartial data) s
         = (MemStorage.set_categories
              (<[id := c']> (MemStorage.categories s)) s, Some c')
         ∧ Category.slug c' = slugify (InsertCategory.name data)
         ∧ Category.name c' = InsertCategory.name data)
  ∧ (∀ id description s c,
       MemStorage.getCategory id s = Some c →
       ∃ c',
         snd (MemStorage.updateCategory id
                (PartialInsertCategory.mk None description) s) = Some c'
         ∧ Category.slug c' = Category.slug c
         ∧ Category.name c' = Category.name c)
  ∧ slugify "Exotic Birds!" = "exotic-birds"
  ∧ (∀ name, slugify (slugify name) = slugify name).
Proof.
  split; [reflexivity|]. split.
  { intros uuid now data s r. simpl. unfold MemStorage.getCategory. simpl.
    repeat split. apply lookup_insert_eq. }
  split.
  { intros id data s c Hc Hv. unfold MemStorage.getCategory in Hc.
    unfold MemStorage.updateCategory. rewrite Hc. unfold asPartial.
    cbn [PartialInsertCategory.name PartialInsertCategory.description].
    rewrite (schema_name_truthy data Hv). simpl.
    eexists. split; [reflexivity|]. done. }
  split.
  { intros id description s c Hc. unfold MemStorage.getCategory in Hc.
    unfold MemStorage.updateCategory. rewrite Hc. simpl.
    eexists. split; [reflexivity|]. done. }
  split; [reflexivity|]. apply slugify_idempotent.
Qed.

(** C9. [deleteCategory] answers whether the id had a category, takes
    this one entry out of the category map and leaves every other category
    in place; the product map and every Product object, those of the
    deleted category among them, the orders and the settings are as
    before. *)
Theorem deleteCategory_no_cascade (id : string) (s : MemStorage.t) :
  let r := MemStorage.deleteCategory id s in
  (snd r = true ↔ is_Some (MemStorage.getCategory id s))
  ∧ MemStorage.getCategory id (fst r) = None
  ∧ (∀ id', id' ≠ id →
            MemStorage.getCategory id' (fst r) = MemStorage.getCategory id' s)
  ∧ MemStorage.products (fst r) = MemStorage.products s
  ∧ MemStorage.heap (fst r) = MemStorage.heap s
  ∧ (∀ k l p,
       MemStorage.getProduct k s = Some l →
       MemStorage.heap s !! l = Some p →
       Product.categoryId p = id →
       MemStorage.getProduct k (fst r) = Some l
       ∧ MemStorage.heap (fst r) !! l = Some p)
  ∧ MemStorage.orders (fst r) = MemStorage.orders s
  ∧ MemStorage.siteSettings (fst r) = MemStorage.siteSettings s.
Proof.
  simpl. unfold MemStorage.getCategory, MemStorage.getProduct. simpl.
  split; [apply bool_decide_eq_true|].
  split; [apply lookup_delete_eq|].
  split; [intros id' Hne; by apply lookup_delete_ne|].
  repeat split; done.
Qed.

(** ** Site settings *)

(** C8. [updateSiteSettings] returns a record with the description and
    the video URL of the patch, the id of the current record and the time
    of the call as [updatedAt]; this record replaces the singleton, so that
    [getSiteSettings] right after returns exactly it; the rest of the store
    is as before. *)
Theorem updateSiteSettings_then_get
    (now : Z) (settings : UpdateSiteSettings.t) (s : MemStorage.t) :
  let r := MemStorage.updateSiteSettings now settings s in
  MemStorage.getSiteSettings (fst r) = snd r
  ∧ SiteSettings.description (snd r) = UpdateSiteSettings.description settings
  ∧ SiteSettings.youtubeUrl (snd r) = UpdateSiteSettings.youtubeUrl settings
  ∧ SiteSettings.id (snd r) = SiteSettings.id (MemStorage.getSiteSettings s)
  ∧ SiteSettings.updatedAt (snd r) = now
  ∧ MemStorage.categories (fst r) = MemStorage.categories s
  ∧ MemStorage.products (fst r) = MemStorage.products s
  ∧ MemStorage.heap (fst r) = MemStorage.heap s
  ∧ MemStorage.orders (fst r) = MemStorage.orders s.
Proof. simpl. repeat split. Qed.

Example settings_scenario :
  let patch := UpdateSiteSettings.mk "X" "https://youtube.com/watch?v=abc" in
  MemStorage.getSiteSettings
    (fst (MemStorage.updateSiteSettings 77 patch (MemStorage.new 0)))
  = SiteSettings.mk "default" "X" "https://youtube.com/watch?v=abc" 77.
Proof. reflexivity. Qed.

(** ** Subscribers *)

(** C7. A broadcast never throws and changes nothing but the connection
    objects: every registered connection that is open when the broadcast
    runs gets the one serialised message appended to what it has received,
    and every other connection, registered or not, is left as it is. A
    connection is registered by the connection handler and unregistered by
    the close and the error handlers, which leave the other registrations
    alone; a connection unregistered before a broadcast gets nothing from
    it. *)
Theorem broadcast_reaches_open_subscribers
    (JSON_stringify : string → Json → string)
    (event : string) (data : Json) (srv : Server) :
  (∃ srv',
     broadcastUpdate JSON_stringify event data srv = (srv', Ok tt)
     ∧ storage srv' = storage srv
     ∧ wsClients srv' = wsClients srv
     ∧ (∀ c, c ∈ wsClients srv →
             WebSocket.readyState (socket srv c) = OPEN →
             socket srv' c
             = WebSocket.mk OPEN
                 (WebSocket.received (socket srv c)
                    ++ [JSON_stringify event data]))
     ∧ (∀ c, WebSocket.readyState (socket srv c) ≠ OPEN →
             sockets srv' !! c = sockets srv !! c)
     ∧ (∀ c, c ∉ wsClients srv → sockets srv' !! c = sockets srv !! c))
  ∧ (∀ ws, (ws ∈ wsClients (on_connection ws srv))
           ∧ (ws ∉ wsClients (on_close ws srv))
           ∧ (ws ∉ wsClients (on_error ws srv))
           ∧ ∀ c, c ≠ ws →
                  (c ∈ wsClients (on_connection ws srv) ↔ c ∈ wsClients srv)
                  ∧ (c ∈ wsClients (on_close ws srv) ↔ c ∈ wsClients srv)
                  ∧ (c ∈ wsClients (on_error ws srv) ↔ c ∈ wsClients srv))
  ∧ (∀ ws,
       sockets (fst (broadcastUpdate JSON_stringify event data
                       (on_close ws srv))) !! ws
       = sockets srv !! ws).
Proof.
  split; [|split].
  - destruct (broadcastUpdate_sockets JSON_stringify event data srv)
      as (so & Hrun & Hso).
    exists (set_sockets so srv). split; [exact Hrun|].
    split; [done|]. split; [done|]. split; [|split].
    + intros c Hc Ho. unfold socket at 1. simpl.
      apply lookup_total_correct. rewrite Hso. by rewrite decide_True.
    + intros c Hn. simpl. rewrite Hso. rewrite decide_False; [done|]. tauto.
    + intros c Hn. simpl. rewrite Hso. rewrite decide_False; [done|]. tauto.
  - intros ws. unfold on_connection, on_close, on_error. simpl.
    rewrite elem_of_union, !elem_of_difference, !elem_of_singleton.
    split; [by left|]. split; [tauto|]. split; [tauto|].
    intros c Hne.
    rewrite elem_of_union, !elem_of_difference, !elem_of_singleton. tauto.
  - intros ws.
    destruct (broadcastUpdate_sockets JSON_stringify event data
                (on_close ws srv)) as (so & -> & Hso).
    simpl. rewrite Hso. rewrite decide_False; [done|].
    unfold on_close. simpl.
    rewrite elem_of_difference, elem_of_singleton. tauto.
Qed.

Example broadcast_scenario :
  let srv := on_close 9%nat (on_connection 9%nat Sample.server) in
  let r :=
    broadcastUpdate Sample.stringify "category:created"
      (JCategory (snd (MemStorage.createCategory "c2" 4 Sample.birds
                         Sample.store))) srv in
  snd r = Ok tt
  ∧ WebSocket.received (socket (fst r) 7%nat) = ["category:created"]
  ∧ WebSocket.received (socket (fst r) 8%nat) = []
  ∧ sockets (fst r) !! 9%nat = None.
Proof. vm_compute. repeat split. Qed.

(* ===================================================================== *)
(** * Further properties of the store and the routes                       *)
(* ===================================================================== *)

(** ** Listings *)

Global Instance productOlder_trans : Transitive productOlder.
Proof. unfold productOlder. intros a b c. lia. Qed.
Global Instance productOlder_total : Total productOlder.
Proof. unfold productOlder. intros a b. lia. Qed.
Global Instance categoryOlder_trans : Transitive categoryOlder.
Proof. unfold categoryOlder. intros a b c. lia. Qed.
Global Instance categoryOlder_total : Total categoryOlder.
Proof. unfold categoryOlder. intros a b. lia. Qed.
Global Instance orderNewer_trans : Transitive orderNewer.
Proof. unfold orderNewer. intros a b c. lia. Qed.
Global Instance orderNewer_total : Total orderNewer.
Proof. unfold orderNewer. intros a b. lia. Qed.

Lemma elem_of_productValues (s : MemStorage.t) p :
  p ∈ productValues s
  ↔ ∃ k l, MemStorage.getProduct k s = Some l ∧ MemStorage.deref s l = p.
Proof.
  unfold productValues, MemStorage.getProduct.
  rewrite list_elem_of_fmap. split.
  - intros ([k l] & -> & Hin). apply elem_of_map_to_list in Hin. eauto.
  - intros (k & l & Hk & <-). exists (k, l). split; [done|].
    by apply elem_of_map_to_list.
Qed.

Lemma elem_of_filterWhen key test products p :
  p ∈ filterWhen key test products
  ↔ p ∈ products ∧ ∀ v, key = Some v → v ≠ "" → test p v = true.
Proof.
  unfold filterWhen. destruct key as [[|c v]|]; simpl.
  - split; [|tauto]. intros H. split; [done|]. intros v [= <-]. done.
  - rewrite list_elem_of_In, filter_In, <- list_elem_of_In. split.
    + intros [H1 H2]. split; [done|]. by intros v' [= <-] _.
    + intros [H1 H2]. split; [done|]. by apply H2.
  - split; [|tauto]. intros H. split; [done|]. done.
Qed.

(** X1. [getProducts] returns exactly the stored products that pass every
    filter that is given and not the empty string (an absent or empty
    filter selects nothing away), oldest first; without filters it returns
    every stored product once. *)
Theorem getProducts_filtered_oldest_first
    (filters : option ProductFilters.t) (s : MemStorage.t) :
  (∀ p, p ∈ getProducts filters s
        ↔ (∃ k l, MemStorage.getProduct k s = Some l
                  ∧ MemStorage.deref s l = p)
          ∧ passesFilters filters p)
  ∧ StronglySorted productOlder (getProducts filters s)
  ∧ getProducts None s ≡ₚ productValues s
  ∧ length (getProducts None s) = size (MemStorage.products s).
Proof.
  split; [|split; [|split]].
  - intros p. unfold getProducts.
    rewrite merge_sort_Permutation, !elem_of_filterWhen, elem_of_productValues.
    unfold passesFilters. split.
    + intros [[[H0 H1] H2] H3]. split; [done|].
      split; [|split]; intros v Hv Hne.
      * by apply (bool_decide_eq_true_1 _ (H1 v Hv Hne)).
      * by apply (bool_decide_eq_true_1 _ (H2 v Hv Hne)).
      * by apply (bool_decide_eq_true_1 _ (H3 v Hv Hne)).
    + intros [H0 (H1 & H2 & H3)].
      split; [split; [split|]|]; try done; intros v Hv Hne;
        apply bool_decide_eq_true_2; eauto.
  - apply StronglySorted_merge_sort; apply _.
  - change (getProducts None s) with (merge_sort productOlder (productValues s)).
    by rewrite merge_sort_Permutation.
  - change (getProducts None s) with (merge_sort productOlder (productValues s)).
    rewrite merge_sort_Permutation.
    unfold productValues. by rewrite length_map, length_map_to_list.
Qed.

(** X2. [getCategories] returns every stored category once, oldest first,
    and [getOrders] every stored order once, newest first. *)
Theorem getCategories_getOrders_sorted (s : MemStorage.t) :
  (∀ c, c ∈ getCategories s ↔ ∃ id, MemStorage.getCategory id s = Some c)
  ∧ StronglySorted categoryOlder (getCategories s)
  ∧ length (getCategories s) = size (MemStorage.categories s)
  ∧ (∀ o, o ∈ getOrders s ↔ ∃ id, MemStorage.getOrder id s = Some o)
  ∧ StronglySorted orderNewer (getOrders s)
  ∧ length (getOrders s) = size (MemStorage.orders s).
Proof.
  unfold getCategories, getOrders, MemStorage.getCategory, MemStorage.getOrder.
  repeat split.
  - rewrite merge_sort_Permutation, list_elem_of_fmap.
    intros ([k c'] & -> & Hin). apply elem_of_map_to_list in Hin. eauto.
  - intros (id & Hid). rewrite merge_sort_Permutation, list_elem_of_fmap.
    exists (id, c). split; [done|]. by apply elem_of_map_to_list.
  - apply StronglySorted_merge_sort; apply _.
  - by rewrite merge_sort_Permutation, length_map, length_map_to_list.
  - rewrite merge_sort_Permutation, list_elem_of_fmap.
    intros ([k c'] & -> & Hin). apply elem_of_map_to_list in Hin. eauto.
  - intros (id & Hid). rewrite merge_sort_Permutation, list_elem_of_fmap.
    exists (id, o). split; [done|]. by apply elem_of_map_to_list.
  - apply StronglySorted_merge_sort; apply _.
  - by rewrite merge_sort_Permutation, length_map, length_map_to_list.
Qed.

(** ** Consistency of the store over any sequence of calls *)

Lemma createOrder_shape uuid now o ps (s s' : MemStorage.t) ord :
  MemStorage.createOrder uuid now o ps s = Ok (s', ord) →
  s' = MemStorage.set_orders (<[uuid := ord]> (MemStorage.orders s)) s
  ∧ Order.id ord = uuid
  ∧ Order.totalAmountINR ord = MemStorage.totalOf (Order.products ord).
Proof.
  unfold MemStorage.createOrder.
  destruct (MemStorage.orderProducts s ps (InsertOrder.products o));
    [|done].
  by intros [= <- <-].
Qed.

Lemma applyOp_keysAgree op (s : MemStorage.t) :
  keysAgree s → keysAgree (applyOp op s).
Proof.
  intros (Hwf & Hc & Ho). destruct op; simpl.
  - split; [exact Hwf|]. split; [|exact Ho].
    intros id c'. simpl. intros H.
    apply lookup_insert_Some in H as [[<- <-]|[_ H]]; [done | by apply Hc].
  - unfold MemStorage.updateCategory.
    destruct (MemStorage.categories s !! id) as [c|] eqn:Hid; [|done].
    split; [exact Hwf|]. split; [|exact Ho].
    intros id' c'. simpl. intros H.
    apply lookup_insert_Some in H as [[<- <-]|[_ H]]; [|by apply Hc].
    simpl. by apply Hc.
  - split; [exact Hwf|]. split; [|exact Ho].
    intros id' c'. simpl. intros H.
    apply lookup_delete_Some in H as [_ H]. by apply Hc.
  - split; [by apply createProduct_wf|]. split; [exact Hc | exact Ho].
  - split; [by apply updateProduct_wf|].
    unfold MemStorage.updateProduct.
    destruct (MemStorage.products s !! id); split; done.
  - split; [by apply deleteProduct_wf|]. split; [exact Hc | exact Ho].
  - split; [by apply updateProductImages_wf|].
    unfold MemStorage.updateProductImages.
    destruct (MemStorage.products s !! id); split; done.
  - split; [by apply updateProductStock_wf|].
    unfold MemStorage.updateProductStock.
    destruct (MemStorage.products s !! id); split; done.
  - destruct (MemStorage.createOrder uuid now o ps s) as [[s' ord]|e] eqn:Hcr;
      [|done].
    destruct (createOrder_shape _ _ _ _ _ _ _ Hcr) as (-> & Hid & Htot).
    split; [exact Hwf|]. split; [exact Hc|].
    intros id o'. simpl. intros H.
    apply lookup_insert_Some in H as [[<- <-]|[_ H]]; [done | by apply Ho].
  - unfold MemStorage.updateOrderStatus.
    destruct (MemStorage.orders s !! id) as [o|] eqn:Hid; [|done].
    split; [exact Hwf|]. split; [exact Hc|].
    intros id' o'. simpl. intros H.
    apply lookup_insert_Some in H as [[<- <-]|[_ H]]; [|by apply Ho].
    simpl. by apply Ho.
  - done.
Qed.

(** X3. In the store reached from a new one by any sequence of calls of
    its methods, every id of the product map leads to a live Product
    object that carries this id, every category and every order sits under
    its own id, and the total of every order is the double-precision sum
    the store computes from its line items, [MemStorage.totalOf]: the exact
    sum of price times quantity where prices and quantities are
    non-negative integers and that sum is below 2^53. *)
Theorem store_keeps_ids_and_totals (now : Z) (ops : list StoreOp) :
  let s := applyOps ops (MemStorage.new now) in
  (∀ k l, MemStorage.getProduct k s = Some l →
          ∃ p, MemStorage.heap s !! l = Some p ∧ Product.id p = k)
  ∧ (∀ id c, MemStorage.getCategory id s = Some c → Category.id c = id)
  ∧ (∀ id o, MemStorage.getOrder id s = Some o →
             Order.id o = id
             ∧ Order.totalAmountINR o = MemStorage.totalOf (Order.products o)
             ∧ (exactTotal (Order.products o) →
                Order.totalAmountINR o = lineTotal (Order.products o))).
Proof.
  assert (H : ∀ s0, keysAgree s0 → keysAgree (applyOps ops s0)).
  { unfold applyOps. induction ops as [|op ops IH]; intros s0 H0; simpl;
      [done|]. by apply IH, applyOp_keysAgree. }
  destruct (H (MemStorage.new now)) as (Hwf & Hc & Ho).
  { split; [apply wf_new|].
    split; intros id x Hx; simpl in Hx; by rewrite lookup_empty in Hx. }
  intros s. split; [exact Hwf|]. split; [exact Hc|].
  intros id o Hid. destruct (Ho id o Hid) as [Hi Ht].
  split; [exact Hi|]. split; [exact Ht|].
  intros He. rewrite Ht. by apply totalOf_lineTotal.
Qed.

(** ** Product methods *)

Lemma live_not_fresh (s : MemStorage.t) k l :
  MemStorage.wf s → MemStorage.products s !! k = Some l →
  l ≠ fresh (dom (MemStorage.heap s)).
Proof.
  intros Hwf Hk Heq. destruct (Hwf _ _ Hk) as (p & Hp & _).
  apply (is_fresh (dom (MemStorage.heap s))). rewrite <- Heq.
  apply elem_of_dom. eauto.
Qed.

Lemma lookupProduct_alloc (s : MemStorage.t) id (product : Product.t) k :
  MemStorage.wf s → k ≠ id →
  lookupProduct k
    (MemStorage.set_products
       (<[id := fresh (dom (MemStorage.heap s))]> (MemStorage.products s))
       (MemStorage.set_heap
          (<[fresh (dom (MemStorage.heap s)) := product]> (MemStorage.heap s))
          s))
  = lookupProduct k s.
Proof.
  intros Hwf Hne. unfold lookupProduct, MemStorage.getProduct. simpl.
  rewrite lookup_insert_ne by done.
  destruct (MemStorage.products s !! k) as [l|] eqn:Hk; simpl; [|done].
  unfold MemStorage.deref. simpl.
  rewrite lookup_total_insert_ne; [done|].
  intros Heq. by apply (live_not_fresh s k l Hwf Hk).
Qed.

(** X4. On a consistent store, [createProduct] stores under the new id a
    product with the given fields, this id, no images and the time of the
    call, returns the reference to it, and leaves the product of every
    other id, the categories, the orders and the settings as they were. *)
Theorem createProduct_then_lookup
    (uuid : string) (now : Z) (data : InsertProduct.t) (s : MemStorage.t) :
  MemStorage.wf s →
  let r := MemStorage.createProduct uuid now data s in
  MemStorage.getProduct uuid (fst r) = Some (snd r)
  ∧ lookupProduct uuid (fst r)
    = Some (Product.mk uuid (InsertProduct.name data)
              (InsertProduct.categoryId data) (InsertProduct.type data)
              (InsertProduct.species data) []
              (InsertProduct.description data)
              (InsertProduct.priceInINR data) (InsertProduct.stock data)
              (InsertProduct.available data) now)
  ∧ (∀ k, k ≠ uuid → lookupProduct k (fst r) = lookupProduct k s)
  ∧ MemStorage.categories (fst r) = MemStorage.categories s
  ∧ MemStorage.orders (fst r) = MemStorage.orders s
  ∧ MemStorage.siteSettings (fst r) = MemStorage.siteSettings s.
Proof.
  intros Hwf r. split; [apply lookup_insert_eq|]. split.
  { unfold lookupProduct, MemStorage.getProduct, r. simpl.
    rewrite lookup_insert_eq. simpl. unfold MemStorage.deref. simpl.
    by rewrite lookup_total_insert_eq. }
  split; [|done]. intros k Hne. by apply lookupProduct_alloc.
Qed.

Lemma createProduct_then_lookup_witness :
  let r := MemStorage.createProduct "p3" 9 Sample.seed Sample.store in
  lookupProduct "p3" (fst r)
  = Some (Product.mk "p3" "Seed mix" "c1" food None [] "One kilogram" 300 10
            true 9)
  ∧ lookupProduct "p1" (fst r) = lookupProduct "p1" Sample.store.
Proof.
  destruct (createProduct_then_lookup "p3" 9 Sample.seed Sample.store)
    as (_ & H1 & H2 & _).
  - apply wfb_wf. vm_compute. reflexivity.
  - split; [exact H1|]. apply H2. discriminate.
Defined.

(** X5. On a consistent store, [updateProduct] of an id without product
    returns nothing and changes nothing. For an id with a product it stores
    a new object under the id: each key of the patch replaces the field,
    each absent key keeps it, and id, images and creation time are always
    kept (an empty patch gives an equal product); the object that was
    stored before is not changed, and the product of every other id and
    the orders are as they were. *)
Theorem updateProduct_merges_into_copy
    (id : string) (u : PartialInsertProduct.t) (s : MemStorage.t) :
  MemStorage.wf s →
  (MemStorage.getProduct id s = None →
   MemStorage.updateProduct id u s = (s, None))
  ∧ (∀ l p,
       MemStorage.getProduct id s = Some l →
       MemStorage.heap s !! l = Some p →
       let r := MemStorage.updateProduct id u s in
       let p' := MemStorage.spread p u in
       (∃ l', snd r = Some l' ∧ l' ≠ l
              ∧ MemStorage.getProduct id (fst r) = Some l')
       ∧ lookupProduct id (fst r) = Some p'
       ∧ Product.name p'
         = default (Product.name p) (PartialInsertProduct.name u)
       ∧ Product.priceInINR p'
         = default (Product.priceInINR p) (PartialInsertProduct.priceInINR u)
       ∧ Product.stock p'
         = default (Product.stock p) (PartialInsertProduct.stock u)
       ∧ Product.available p'
         = default (Product.available p) (PartialInsertProduct.available u)
       ∧ Product.id p' = Product.id p
       ∧ Product.images p' = Product.images p
       ∧ Product.createdAt p' = Product.createdAt p
       ∧ MemStorage.spread p emptyPatch = p
       ∧ MemStorage.deref (fst r) l = p
       ∧ (∀ k, k ≠ id → lookupProduct k (fst r) = lookupProduct k s)
       ∧ MemStorage.orders (fst r) = MemStorage.orders s).
Proof.
  intros Hwf. unfold MemStorage.getProduct. split.
  { intros H. unfold MemStorage.updateProduct. by rewrite H. }
  intros l p Hl Hp. cbv zeta.
  unfold MemStorage.updateProduct. rewrite Hl.
  rewrite (deref_lookup _ _ _ Hp). simpl.
  pose proof (live_not_fresh s id l Hwf Hl) as Hfresh.
  split.
  { eexists. split; [reflexivity|]. split; [congruence|].
    unfold MemStorage.getProduct. simpl. apply lookup_insert_eq. }
  split.
  { unfold lookupProduct, MemStorage.getProduct. simpl.
    rewrite lookup_insert_eq. simpl. unfold MemStorage.deref. simpl.
    by rewrite lookup_total_insert_eq. }
  repeat (split; [reflexivity|]).
  split; [by destruct p|]. split.
  { unfold MemStorage.deref. simpl.
    rewrite lookup_total_insert_ne by congruence.
    by apply lookup_total_correct. }
  split; [|done]. intros k Hne. by apply lookupProduct_alloc.
Qed.

Lemma updateProduct_merges_into_copy_witness :
  let u := PartialInsertProduct.mk None None None None None (Some 5000) None
             None in
  let r := MemStorage.updateProduct "p1" u Sample.store in
  lookupProduct "p1" (fst r)
  = Some (Product.mk "p1" "Macaw" "c1" pet (Some "Bird") [] "A blue macaw"
            5000 2 false 2)
  ∧ MemStorage.updateProduct "zz" u Sample.store = (Sample.store, None).
Proof.
  intros u r.
  destruct (updateProduct_merges_into_copy "p1" u Sample.store
              (wfb_wf Sample.store eq_refl)) as [_ H].
  destruct (updateProduct_merges_into_copy "zz" u Sample.store
              (wfb_wf Sample.store eq_refl)) as [Hz _].
  split; [|apply Hz; vm_compute; reflexivity].
  destruct (H 0%nat (productOf Sample.store "p1")) as (_ & Hp & _).
  - vm_compute. reflexivity.
  - vm_compute. reflexivity.
  - exact Hp.
Defined.

(** X6. [updateProductStock] and [updateProductImages] return nothing and
    change nothing for an id without product. For an id with a product, on
    a consistent store, they change the stored object itself: the same
    reference is returned and stays under the id, the object behind it has
    the new stock (or the new images) and is otherwise equal, and the
    product of every other id and the orders are as they were. *)
Theorem updateProductStock_in_place
    (id : string) (n : Z) (imgs : list string) (s : MemStorage.t) :
  MemStorage.wf s →
  (MemStorage.getProduct id s = None →
   MemStorage.updateProductStock id n s = (s, None)
   ∧ MemStorage.updateProductImages id imgs s = (s, None))
  ∧ (∀ l p,
       MemStorage.getProduct id s = Some l →
       MemStorage.heap s !! l = Some p →
       let r := MemStorage.updateProductStock id n s in
       let r' := MemStorage.updateProductImages id imgs s in
       snd r = Some l
       ∧ MemStorage.getProduct id (fst r) = Some l
       ∧ MemStorage.deref (fst r) l = Product.set_stock n p
       ∧ (∀ k, k ≠ id → lookupProduct k (fst r) = lookupProduct k s)
       ∧ MemStorage.orders (fst r) = MemStorage.orders s
       ∧ snd r' = Some l
       ∧ MemStorage.getProduct id (fst r') = Some l
       ∧ MemStorage.deref (fst r') l = Product.set_images imgs p
       ∧ (∀ k, k ≠ id → lookupProduct k (fst r') = lookupProduct k s)
       ∧ MemStorage.orders (fst r') = MemStorage.orders s).
Proof.
  intros Hwf. unfold MemStorage.getProduct. split.
  { intros H. unfold MemStorage.updateProductStock,
      MemStorage.updateProductImages. by rewrite H. }
  intros l p Hl Hp. cbv zeta.
  rewrite (updateProductStock_found s id l n Hl).
  unfold MemStorage.updateProductImages. rewrite Hl.
  rewrite (insert_id _ _ _ Hl), set_products_same.
  rewrite (deref_lookup _ _ _ Hp). simpl.
  assert (Hframe : ∀ (q : Product.t) k, k ≠ id →
            lookupProduct k
              (MemStorage.set_heap (<[l := q]> (MemStorage.heap s)) s)
            = lookupProduct k s).
  { intros q k Hne. unfold lookupProduct, MemStorage.getProduct. simpl.
    destruct (MemStorage.products s !! k) as [lk|] eqn:Hk; simpl; [|done].
    unfold MemStorage.deref. simpl.
    rewrite lookup_total_insert_ne; [done|].
    intros <-. apply Hne. exact (wf_inj s k id l Hwf Hk Hl). }
  unfold MemStorage.getProduct, MemStorage.deref. simpl.
  rewrite !lookup_total_insert_eq.
  repeat (split; [done|]). split; [apply Hframe|].
  repeat (split; [done|]). split; [apply Hframe | done].
Qed.

Lemma updateProductStock_in_place_witness :
  MemStorage.deref
    (fst (MemStorage.updateProductStock "p1" 7 Sample.store)) 0%nat
  = Product.set_stock 7 (productOf Sample.store "p1")
  ∧ lookupProduct "p2"
      (fst (MemStorage.updateProductStock "p1" 7 Sample.store))
    = lookupProduct "p2" Sample.store.
Proof.
  destruct (updateProductStock_in_place "p1" 7 [] Sample.store
              (wfb_wf Sample.store eq_refl)) as [_ H].
  destruct (H 0%nat (productOf Sample.store "p1"))
    as (_ & _ & Hd & Hf & _).
  - vm_compute. reflexivity.
  - vm_compute. reflexivity.
  - split; [exact Hd|]. apply Hf. discriminate.
Defined.

(** X7. [createOrder] throws, with the message naming the product id, at
    the first line whose product is not in the array it is given, and then
    stores nothing; when every line has its product it returns an order
    with status pending, the customer of the request and the time of the
    call, stored under the new id, and changes nothing else. *)
Theorem createOrder_throws_at_first_missing
    (uuid : string) (now : Z) (o : InsertOrder.t) (ps : list loc)
    (s : MemStorage.t) :
  (∀ pre x post,
     InsertOrder.products o = (pre ++ x :: post)%list →
     Forall (fun y => is_Some (MemStorage.findById s (OrderLine.productId y)
                                 ps)) pre →
     MemStorage.findById s (OrderLine.productId x) ps = None →
     MemStorage.createOrder uuid now o ps s
     = Throw (mkError ("Product " +:+ OrderLine.productId x
                       +:+ " not found")))
  ∧ (Forall (fun y => is_Some (MemStorage.findById s (OrderLine.productId y)
                                 ps)) (InsertOrder.products o) →
     ∃ ord,
       MemStorage.createOrder uuid now o ps s
       = Ok (MemStorage.set_orders (<[uuid := ord]> (MemStorage.orders s)) s,
             ord)
       ∧ Order.id ord = uuid
       ∧ Order.status ord = pending
       ∧ Order.customer ord = InsertOrder.customer o
       ∧ Order.createdAt ord = now
       ∧ length (Order.products ord) = length (InsertOrder.products o)).
Proof.
  unfold MemStorage.createOrder. split.
  - intros pre x post -> Hpre Hx.
    enough (H : MemStorage.orderProducts s ps (pre ++ x :: post)
                = Throw (mkError ("Product " +:+ OrderLine.productId x
                                  +:+ " not found"))) by (by rewrite H).
    induction Hpre as [|y pre [l Hl] _ IH]; simpl.
    + by rewrite Hx.
    + by rewrite Hl, IH.
  - intros Hall.
    assert (H : ∃ items,
               MemStorage.orderProducts s ps (InsertOrder.products o)
               = Ok items
               ∧ length items = length (InsertOrder.products o)).
    { induction Hall as [|y lines [l Hl] _ (items & IH & Hlen)]; simpl.
      - by exists [].
      - rewrite Hl, IH. eexists. split; [reflexivity|]. simpl. by rewrite Hlen. }
    destruct H as (items & -> & Hlen).
    eexists. split; [reflexivity|]. simpl. done.
Qed.

(** ** When an order is created *)

Lemma checkStock_status (st : MemStorage.t) ps lines r :
  checkStock st ps lines = Some r → status r = 400.
Proof.
  induction lines as [|x lines IH]; simpl; [done|].
  destruct (findProduct st _ ps); [|by intros [= <-]].
  destruct (_ <? _); [by intros [= <-] | exact IH].
Qed.

(** X8. On a consistent store the order handler answers 201 exactly when
    the request passes the order schema and every line names a stored
    product with at least the requested quantity in stock; its answer is
    201 or 400 and nothing else. *)
Theorem postOrders_created_iff
    (JSON_stringify : string → Json → string)
    (uuid : string) (now : Z) (body : InsertOrder.t) (srv : Server) :
  MemStorage.wf (storage srv) →
  let r := postOrders JSON_stringify uuid now body srv in
  (status (snd r) = 201
   ↔ insertOrderSchema body = true ∧ inStock (storage srv) body)
  ∧ (status (snd r) = 201 ∨ status (snd r) = 400).
Proof.
  intros Hwf r. split.
  - split.
    + by apply postOrders_created_inStock.
    + intros [Hv Hin].
      destruct (postOrders_accepted JSON_stringify uuid now body srv
                  Hwf Hv Hin) as (so & Hr & _).
      unfold r. by rewrite Hr.
  - unfold r. rewrite postOrders_unfold.
    destruct (insertOrderSchema body); [|by right]. cbv zeta.
    destruct (existsb _ _); [by right|].
    destruct (checkStock _ _ _) as [resp|] eqn:Hck.
    { right. simpl. by apply (checkStock_status _ _ _ _ Hck). }
    destruct (MemStorage.createOrder _ _ _ _ _) as [[st1 order]|e];
      [|by right].
    destruct (broadcastUpdate_sockets JSON_stringify "order:created"
                (JOrder order)
                (set_storage
                   (decrementStock (resolved (storage srv) body)
                      (InsertOrder.products body) st1) srv))
      as (so & -> & _).
    by left.
Qed.

Lemma postOrders_created_iff_witness :
  status (snd (postOrders Sample.stringify "o1" 5
                 (Sample.order [OrderLine.mk "p1" 2; OrderLine.mk "p2" 10])
                 Sample.server)) = 201
  ∧ status (snd (postOrders Sample.stringify "o1" 5
                   (Sample.order [OrderLine.mk "p1" 2; OrderLine.mk "p2" 11])
                   Sample.server)) ≠ 201.
Proof.
  split.
  - apply (proj1 (postOrders_created_iff Sample.stringify "o1" 5
                    (Sample.order [OrderLine.mk "p1" 2; OrderLine.mk "p2" 10])
                    Sample.server (wfb_wf Sample.store eq_refl))).
    split; [vm_compute; reflexivity|].
    constructor; [|constructor; [|constructor]].
    + exists 0%nat. split; [vm_compute; reflexivity | vm_compute; discriminate].
    + exists 1%nat. split; [vm_compute; reflexivity | vm_compute; discriminate].
  - intros H.
    apply (proj1 (postOrders_created_iff Sample.stringify "o1" 5
                    (Sample.order [OrderLine.mk "p1" 2; OrderLine.mk "p2" 11])
                    Sample.server (wfb_wf Sample.store eq_refl))) in H
      as [_ Hin].
    inversion Hin as [|? ? _ Hrest]; subst.
    inversion Hrest as [|? ? (l & Hl & Hq) _]; subst.
    vm_compute in Hl. injection Hl as <-. vm_compute in Hq. by apply Hq.
Defined.

(** X9. On a consistent store where no stock is negative, any sequence of
    order requests, accepted or not, in which no request names a product in
    two lines leaves the store consistent and every stock non-negative. *)
Theorem placeOrders_keeps_stock_nonNegative
    (JSON_stringify : string → Json → string)
    (requests : list (string * Z * InsertOrder.t)) (srv : Server) :
  MemStorage.wf (storage srv) →
  nonNegativeStock (storage srv) →
  Forall (fun request => distinctProducts (snd request)) requests →
  MemStorage.wf (storage (placeOrders JSON_stringify requests srv))
  ∧ nonNegativeStock (storage (placeOrders JSON_stringify requests srv)).
Proof.
  intros Hwf Hpos Hall. split.
  - clear Hpos Hall. revert srv Hwf.
    induction requests as [|[[uuid now] body] requests IH]; intros srv Hwf;
      simpl; [done|].
    apply IH. by apply postOrders_wf.
  - by apply placeOrders_distinct_nonNegative.
Qed.

Lemma sample_nonNegative : nonNegativeStock Sample.store.
Proof.
  assert (Hall : map_Forall
                   (fun _ l =>
                      0 ≤ Product.stock (MemStorage.deref Sample.store l))
                   (MemStorage.products Sample.store)).
  { apply (bool_decide_unpack _). vm_compute. exact I. }
  intros k s. unfold stockOf.
  destruct (MemStorage.products Sample.store !! k) as [l|] eqn:Hk;
    simpl; [|done].
  intros [= <-]. exact (Hall k l Hk).
Qed.

Lemma placeOrders_keeps_stock_nonNegative_witness :
  nonNegativeStock
    (storage
       (placeOrders Sample.stringify
          [("o1", 5, Sample.order [OrderLine.mk "p1" 2; OrderLine.mk "p2" 4]);
           ("o2", 6, Sample.order [OrderLine.mk "p1" 1]);
           ("o3", 7, Sample.order [OrderLine.mk "p2" 6])]
          Sample.server)).
Proof.
  apply (placeOrders_keeps_stock_nonNegative Sample.stringify).
  - apply wfb_wf. vm_compute. reflexivity.
  - exact sample_nonNegative.
  - repeat (constructor;
            [unfold distinctProducts; apply (bool_decide_unpack _);
             vm_compute; exact I|]).
    constructor.
Defined.

(** ** Admin routes *)

Lemma set_storage_same (srv : Server) : set_storage (storage srv) srv = srv.
Proof. by destruct srv. Qed.

Lemma deleteCategory_absent id (s : MemStorage.t) :
  MemStorage.categories s !! id = None →
  MemStorage.deleteCategory id s = (s, false).
Proof.
  intros H. unfold MemStorage.deleteCategory. rewrite (delete_id _ _ H), H.
  rewrite bool_decide_false by (by intros [? ?]). by destruct s.
Qed.

Lemma deleteProduct_absent id (s : MemStorage.t) :
  MemStorage.products s !! id = None →
  MemStorage.deleteProduct id s = (s, false).
Proof.
  intros H. unfold MemStorage.deleteProduct. rewrite (delete_id _ _ H), H.
  rewrite bool_decide_false by (by intros [? ?]). by destruct s.
Qed.

Section AdminRoutes.

Variable JSON_stringify : string → Json → string.
Variable isUrl : string → bool.

Lemma postCategories_run uuid now body srv :
  postCategories JSON_stringify true uuid now body srv
  = if insertCategorySchema body
    then
      let r := MemStorage.createCategory uuid now body (storage srv) in
      (fst (broadcastUpdate JSON_stringify "category:created"
              (JCategory (snd r)) (set_storage (fst r) srv)),
       mkResponse 201 (JCategory (snd r)))
    else (srv, mkResponse 400 JZodIssues).
Proof.
  unfold postCategories, requireAdmin, try_catch, bind, parse, await. simpl.
  destruct (insertCategorySchema body); [|reflexivity]. simpl.
  destruct (broadcastUpdate_sockets JSON_stringify "category:created"
              (JCategory
                 (snd (MemStorage.createCategory uuid now body (storage srv))))
              (set_storage
                 (fst (MemStorage.createCategory uuid now body (storage srv)))
                 srv)) as (so & Hb & _).
  simpl in Hb. rewrite Hb. reflexivity.
Qed.

Lemma putCategories_run id body srv :
  putCategories JSON_stringify true id body srv
  = if insertCategorySchema body
    then
      match MemStorage.updateCategory id (asPartial body) (storage srv) with
      | (st, Some c) =>
          (fst (broadcastUpdate JSON_stringify "category:updated"
                  (JCategory c) (set_storage st srv)),
           mkResponse 200 (JCategory c))
      | (st, None) => (srv, mkResponse 404 (JMessage "Category not found"))
      end
    else (srv, mkResponse 400 JZodIssues).
Proof.
  unfold putCategories, requireAdmin, try_catch, bind, parse, await. simpl.
  destruct (insertCategorySchema body); [|reflexivity]. simpl.
  unfold MemStorage.updateCategory.
  destruct (MemStorage.categories (storage srv) !! id) as [c|] eqn:Hc.
  - match goal with
    | |- context [broadcastUpdate _ ?e ?d ?x] =>
        destruct (broadcastUpdate_sockets JSON_stringify e d x)
          as (so & Hb & _)
    end.
    rewrite Hb. reflexivity.
  - by rewrite set_storage_same.
Qed.

Lemma deleteCategories_run id srv :
  deleteCategories JSON_stringify true id srv
  = match MemStorage.getCategory id (storage srv) with
    | Some _ =>
        (fst (broadcastUpdate JSON_stringify "category:deleted" (JId id)
                (set_storage (fst (MemStorage.deleteCategory id (storage srv)))
                   srv)),
         mkResponse 204 JNothing)
    | None => (srv, mkResponse 404 (JMessage "Category not found"))
    end.
Proof.
  unfold deleteCategories, requireAdmin, try_catch, bind, await,
    MemStorage.getCategory. simpl.
  destruct (MemStorage.categories (storage srv) !! id) as [c|] eqn:Hc.
  - rewrite bool_decide_true by eauto. simpl.
    match goal with
    | |- context [broadcastUpdate _ ?e ?d ?x] =>
        destruct (broadcastUpdate_sockets JSON_stringify e d x)
          as (so & Hb & _)
    end.
    rewrite Hb. reflexivity.
  - rewrite bool_decide_false by (by intros [? ?]). simpl.
    rewrite (delete_id _ _ Hc).
    by destruct srv as [[] ? ?].
Qed.

Lemma deleteProducts_run id srv :
  deleteProducts JSON_stringify true id srv
  = match MemStorage.getProduct id (storage srv) with
    | Some _ =>
        (fst (broadcastUpdate JSON_stringify "product:deleted" (JId id)
                (set_storage (fst (MemStorage.deleteProduct id (storage srv)))
                   srv)),
         mkResponse 204 JNothing)
    | None => (srv, mkResponse 404 (JMessage "Product not found"))
    end.
Proof.
  unfold deleteProducts, requireAdmin, try_catch, bind, await,
    MemStorage.getProduct. simpl.
  destruct (MemStorage.products (storage srv) !! id) as [l|] eqn:Hl.
  - rewrite bool_decide_true by eauto. simpl.
    match goal with
    | |- context [broadcastUpdate _ ?e ?d ?x] =>
        destruct (broadcastUpdate_sockets JSON_stringify e d x)
          as (so & Hb & _)
    end.
    rewrite Hb. reflexivity.
  - rewrite bool_decide_false by (by intros [? ?]). simpl.
    rewrite (delete_id _ _ Hl).
    by destruct srv as [[] ? ?].
Qed.

Lemma putSite_run now body srv :
  putSite JSON_stringify isUrl true now body srv
  = match updateSiteSettingsSchema isUrl body with
    | Some validatedData =>
        let r :=
          MemStorage.updateSiteSettings now validatedData (storage srv) in
        (fst (broadcastUpdate JSON_stringify "settings:updated"
                (JSettings (snd r)) (set_storage (fst r) srv)),
         mkResponse 200 (JSettings (snd r)))
    | None => (srv, mkResponse 400 JZodIssues)
    end.
Proof.
  unfold putSite, requireAdmin, try_catch, bind, parse_with, await. simpl.
  destruct (updateSiteSettingsSchema isUrl body) as [v|]; [|reflexivity].
  simpl.
  match goal with
  | |- context [broadcastUpdate _ ?e ?d ?x] =>
      destruct (broadcastUpdate_sockets JSON_stringify e d x)
        as (so & Hb & _)
  end.
  rewrite Hb. reflexivity.
Qed.

Lemma broadcastUpdate_storage event data srv :
  storage (fst (broadcastUpdate JSON_stringify event data srv)) = storage srv.
Proof.
  destruct (broadcastUpdate_sockets JSON_stringify event data srv)
    as (so & -> & _). reflexivity.
Qed.

End AdminRoutes.

Lemma includes_status_Some status st :
  includes_status status = Some st → status = statusName st.
Proof.
  unfold includes_status.
  destruct (String.eqb_spec status "pending") as [->|_]; [by intros [= <-]|].
  destruct (String.eqb_spec status "completed") as [->|_]; [by intros [= <-]|].
  destruct (String.eqb_spec status "cancelled") as [->|_]; [by intros [= <-]|].
  done.
Qed.

(** X10. An admin route that does not answer with a success code (200,
    201 or 204) leaves the whole server state as it was: this holds for the
    status update of an order, for creating, updating and deleting a
    category, for deleting a product and for updating the site settings,
    whatever the request. A request without admin session is always
    answered 401. *)
Theorem admin_routes_fail_without_change
    (JSON_stringify : string → Json → string) (isUrl : string → bool)
    (isAuthenticated : bool) (srv : Server) :
  (∀ id value,
     let r := putOrderStatus JSON_stringify isAuthenticated id value srv in
     succeeded (snd r) = false → fst r = srv)
  ∧ (∀ uuid now body,
       let r :=
         postCategories JSON_stringify isAuthenticated uuid now body srv in
       succeeded (snd r) = false → fst r = srv)
  ∧ (∀ id body,
       let r := putCategories JSON_stringify isAuthenticated id body srv in
       succeeded (snd r) = false → fst r = srv)
  ∧ (∀ id,
       let r := deleteCategories JSON_stringify isAuthenticated id srv in
       succeeded (snd r) = false → fst r = srv)
  ∧ (∀ id,
       let r := deleteProducts JSON_stringify isAuthenticated id srv in
       succeeded (snd r) = false → fst r = srv)
  ∧ (∀ now body,
       let r := putSite JSON_stringify isUrl isAuthenticated now body srv in
       succeeded (snd r) = false → fst r = srv)
  ∧ (isAuthenticated = false →
     ∀ id value uuid now body now' body',
       status (snd (putOrderStatus JSON_stringify false id value srv)) = 401
       ∧ status (snd (postCategories JSON_stringify false uuid now body srv))
         = 401
       ∧ status (snd (putCategories JSON_stringify false id body srv)) = 401
       ∧ status (snd (deleteCategories JSON_stringify false id srv)) = 401
       ∧ status (snd (deleteProducts JSON_stringify false id srv)) = 401
       ∧ status (snd (putSite JSON_stringify isUrl false now' body' srv))
         = 401).
Proof.
  destruct isAuthenticated; repeat split; try done; cbv zeta.
  - intros id value.
    destruct (includes_status value) as [st|] eqn:Hst.
    + apply includes_status_Some in Hst as ->.
      destruct (MemStorage.getOrder id (storage srv)) as [o|] eqn:Ho.
      * destruct (putOrderStatus_found JSON_stringify id st srv o Ho)
          as (so & ->). done.
      * by rewrite (putOrderStatus_unknown JSON_stringify id st srv Ho).
    + by rewrite (putOrderStatus_invalid JSON_stringify id value srv Hst).
  - intros uuid now body. rewrite postCategories_run.
    by destruct (insertCategorySchema body).
  - intros id body. rewrite putCategories_run.
    destruct (insertCategorySchema body); [|done].
    by destruct (MemStorage.updateCategory _ _ _) as [st [c|]].
  - intros id. rewrite deleteCategories_run.
    by destruct (MemStorage.getCategory _ _).
  - intros id. rewrite deleteProducts_run.
    by destruct (MemStorage.getProduct _ _).
  - intros now body. rewrite putSite_run.
    by destruct (updateSiteSettingsSchema _ _).
Qed.

(** X11. The authenticated product deletion answers 204 exactly when the
    id had a product and 404 otherwise; afterwards the id has no product,
    the product of every other id and all stored orders (with their line
    items) are as before, and every valid order request with a line for
    this id is answered with the not-found failure and changes nothing. *)
Theorem deleteProducts_then_order
    (JSON_stringify : string → Json → string) (id : string) (srv : Server) :
  let r := deleteProducts JSON_stringify true id srv in
  (status (snd r) = 204 ↔ is_Some (MemStorage.getProduct id (storage srv)))
  ∧ (status (snd r) = 204 ∨ status (snd r) = 404)
  ∧ MemStorage.getProduct id (storage (fst r)) = None
  ∧ (∀ k, k ≠ id →
          lookupProduct k (storage (fst r)) = lookupProduct k (storage srv))
  ∧ MemStorage.orders (storage (fst r)) = MemStorage.orders (storage srv)
  ∧ (∀ uuid now body,
       insertOrderSchema body = true →
       (∃ line, line ∈ InsertOrder.products body
                ∧ OrderLine.productId line = id) →
       postOrders JSON_stringify uuid now body (fst r) = (fst r, notFound)).
Proof.
  intros r.
  assert (Hst : MemStorage.products (storage (fst r))
                = delete id (MemStorage.products (storage srv))
                ∧ MemStorage.heap (storage (fst r))
                  = MemStorage.heap (storage srv)
                ∧ MemStorage.orders (storage (fst r))
                  = MemStorage.orders (storage srv)).
  { unfold r. rewrite deleteProducts_run. unfold MemStorage.getProduct.
    destruct (MemStorage.products (storage srv) !! id) eqn:Hid.
    - simpl. by rewrite broadcastUpdate_storage.
    - simpl. by rewrite (delete_id _ _ Hid). }
  destruct Hst as (Hp & Hh & Ho).
  assert (Hgone : MemStorage.getProduct id (storage (fst r)) = None).
  { unfold MemStorage.getProduct. rewrite Hp. apply lookup_delete_eq. }
  split; [|split; [|split; [exact Hgone|split; [|split; [exact Ho|]]]]].
  - unfold r. rewrite deleteProducts_run.
    destruct (MemStorage.getProduct id (storage srv)); simpl.
    + split; eauto.
    + split; [done|]. by intros [? ?].
  - unfold r. rewrite deleteProducts_run.
    destruct (MemStorage.getProduct id (storage srv)); [by left | by right].
  - intros k Hne. unfold lookupProduct, MemStorage.getProduct,
      MemStorage.deref. rewrite Hp, Hh. by rewrite lookup_delete_ne.
  - intros uuid now body Hv (line & Hin & Hid).
    apply postOrders_missing; [exact Hv|].
    exists line. split; [exact Hin|]. by rewrite Hid.
Qed.

(** ** Categories through the routes *)

Lemma schema_name_nonempty (c : InsertCategory.t) :
  insertCategorySchema c = true → InsertCategory.name c ≠ "".
Proof.
  unfold insertCategorySchema. by destruct (InsertCategory.name c).
Qed.

Lemma handleCategoryRequest_inSync JSON_stringify request srv :
  slugsInSync (storage srv) →
  slugsInSync (storage (handleCategoryRequest JSON_stringify request srv)).
Proof.
  intros Hs. destruct request as [[] uuid now body|[] id body|[] id];
    simpl; try exact Hs.
  - rewrite postCategories_run.
    destruct (insertCategorySchema body) eqn:Hv; [|exact Hs]. cbv zeta.
    cbn [fst snd]. rewrite broadcastUpdate_storage. simpl.
    intros id c H. simpl in H.
    apply lookup_insert_Some in H as [[<- <-]|[_ H]]; [|exact (Hs _ _ H)].
    simpl. split; [by apply schema_name_nonempty | done].
  - rewrite putCategories_run.
    destruct (insertCategorySchema body) eqn:Hv; [|exact Hs].
    unfold MemStorage.updateCategory.
    destruct (MemStorage.categories (storage srv) !! id) as [c0|] eqn:Hid;
      [|exact Hs].
    cbn [fst snd]. rewrite broadcastUpdate_storage. simpl.
    intros id' c H. simpl in H.
    apply lookup_insert_Some in H as [[<- <-]|[_ H]]; [|exact (Hs _ _ H)].
    simpl. pose proof (schema_name_nonempty body Hv) as Hne.
    split; [done|]. destruct (InsertCategory.name body); done.
  - rewrite deleteCategories_run.
    destruct (MemStorage.getCategory id (storage srv)); [|exact Hs].
    cbn [fst snd]. rewrite broadcastUpdate_storage. simpl.
    intros id' c H. simpl in H.
    apply lookup_delete_Some in H as [_ H]. exact (Hs _ _ H).
Qed.

(** X12. Through the category routes the slug stays in step with the
    name: if every stored category has a non-empty name and the slug of
    this name, the same holds after any sequence of requests to create,
    update and delete categories, valid or not, authenticated or not. *)
Theorem category_routes_keep_slugs_in_sync
    (JSON_stringify : string → Json → string)
    (requests : list CategoryRequest) (srv : Server) :
  slugsInSync (storage srv) →
  slugsInSync
    (storage
       (fold_left (fun s request =>
                     handleCategoryRequest JSON_stringify request s)
                  requests srv)).
Proof.
  revert srv. induction requests as [|request requests IH]; intros srv Hs;
    simpl; [exact Hs|].
  by apply IH, handleCategoryRequest_inSync.
Qed.

Lemma category_routes_keep_slugs_in_sync_witness :
  slugsInSync
    (storage
       (fold_left (fun s request =>
                     handleCategoryRequest Sample.stringify request s)
                  [PostCategory true "c2" 5 (InsertCategory.mk "Big Cats" "");
                   PutCategory true "c1" (InsertCategory.mk "Song Birds" "x");
                   PutCategory true "c2" (InsertCategory.mk "" "y");
                   DeleteCategory false "c1"]
                  Sample.server)).
Proof.
  apply (category_routes_keep_slugs_in_sync Sample.stringify).
  intros id c H.
  assert (Hall : map_Forall
                   (fun _ c => Category.name c ≠ ""
                               ∧ Category.slug c = slugify (Category.name c))
                   (MemStorage.categories Sample.store)).
  { apply (bool_decide_unpack _). vm_compute. exact I. }
  exact (Hall id c H).
Defined.

(** ** Site settings through the route *)

(** X13. For an authenticated admin the body is validated as the schema
    does it: the empty string takes the place of an absent video URL and
    the URL test then runs on what is there, the default included. With a
    description of one character or more and a URL that passes the test,
    the settings are stored with both; the answer is 200 with the stored
    record, which carries the id of the old record and the time of the
    call, and which the public settings route returns right after. A body
    without description, with an empty one, or whose URL, or the empty
    string in its absence, fails the test is answered 400 and changes
    nothing; so, the empty string not being a URL, every body without video
    URL is refused. *)
Theorem putSite_validates_url
    (JSON_stringify : string → Json → string) (isUrl : string → bool)
    (now : Z) (body : SiteSettingsBody.t) (srv : Server) :
  let r := putSite JSON_stringify isUrl true now body srv in
  let old := MemStorage.getSiteSettings (storage srv) in
  let url := default "" (SiteSettingsBody.youtubeUrl body) in
  (∀ d, SiteSettingsBody.description body = Some d → d ≠ "" →
        isUrl url = true →
        let new := SiteSettings.mk (SiteSettings.id old) d url now in
        snd r = mkResponse 200 (JSettings new)
        ∧ MemStorage.getSiteSettings (storage (fst r)) = new
        ∧ getSettings (fst r) = (fst r, mkResponse 200 (JSettings new)))
  ∧ (SiteSettingsBody.description body = None
     ∨ SiteSettingsBody.description body = Some ""
     ∨ isUrl url = false →
     r = (srv, mkResponse 400 JZodIssues))
  ∧ (isUrl "" = false → SiteSettingsBody.youtubeUrl body = None →
     r = (srv, mkResponse 400 JZodIssues)).
Proof.
  cbv zeta. rewrite putSite_run.
  assert (Hbad : SiteSettingsBody.description body = None
                 ∨ SiteSettingsBody.description body = Some ""
                 ∨ isUrl (default "" (SiteSettingsBody.youtubeUrl body))
                   = false →
                 updateSiteSettingsSchema isUrl body = None).
  { intros H. unfold updateSiteSettingsSchema.
    destruct H as [->|[->|H]]; try reflexivity.
    rewrite H. by destruct (SiteSettingsBody.description body) as [[|c d]|]. }
  split; [|split].
  - intros d Hd Hne Hurl.
    assert (Hs : updateSiteSettingsSchema isUrl body
                 = Some (UpdateSiteSettings.mk d
                           (default "" (SiteSettingsBody.youtubeUrl body)))).
    { unfold updateSiteSettingsSchema. rewrite Hd.
      destruct d as [|c d]; [done|]. by rewrite Hurl. }
    rewrite Hs. cbn [fst snd].
    unfold getSettings, try_catch, bind, read, ret.
    rewrite broadcastUpdate_storage. simpl. done.
  - intros H. by rewrite (Hbad H).
  - intros He Hnone. rewrite Hbad; [done|].
    right. right. by rewrite Hnone.
Qed.

Lemma putSite_validates_url_witness :
  let isUrl := fun url => String.prefix "https://" url in
  let first :=
    putSite Sample.stringify isUrl true 5
      (SiteSettingsBody.mk (Some "X")
         (Some "https://youtube.com/watch?v=abc")) Sample.server in
  let second :=
    putSite Sample.stringify isUrl true 6
      (SiteSettingsBody.mk (Some "Y") None) (fst first) in
  MemStorage.getSiteSettings (storage (fst first))
  = SiteSettings.mk "default" "X" "https://youtube.com/watch?v=abc" 5
  ∧ second = (fst first, mkResponse 400 JZodIssues).
Proof.
  intros isUrl first second.
  split; [vm_compute; reflexivity|].
  apply (proj2 (proj2 (putSite_validates_url Sample.stringify isUrl 6
                         (SiteSettingsBody.mk (Some "Y") None) (fst first))));
    reflexivity.
Defined.

(** ** Broadcasts one after the other *)

Section Broadcasts.

Variable JSON_stringify : string → Json → string.

Lemma broadcast_socket event data srv c :
  socket (fst (broadcastUpdate JSON_stringify event data srv)) c
  = if decide (c ∈ wsClients srv
               ∧ WebSocket.readyState (socket srv c) = OPEN)
    then WebSocket.mk OPEN
           (WebSocket.received (socket srv c)
              ++ [JSON_stringify event data])
    else socket srv c.
Proof.
  destruct (broadcastUpdate_sockets JSON_stringify event data srv)
    as (so & -> & Hso).
  unfold socket at 1. simpl. rewrite lookup_total_alt, Hso.
  case_decide; [done|]. unfold socket. by rewrite lookup_total_alt.
Qed.

Lemma broadcast_wsClients event data srv :
  wsClients (fst (broadcastUpdate JSON_stringify event data srv))
  = wsClients srv.
Proof.
  destruct (broadcastUpdate_sockets JSON_stringify event data srv)
    as (so & -> & _). reflexivity.
Qed.

End Broadcasts.

(** X14. Two broadcasts one after the other reach a registered connection
    that is open in this order: it has received the first message and then
    the second. No broadcast changes the state of a connection or the set
    of registered connections. An open connection that registers between
    the two broadcasts gets the second message only, and registering a
    connection twice does not make it receive a message twice. *)
Theorem broadcasts_arrive_in_order
    (JSON_stringify : string → Json → string)
    (e1 e2 : string) (d1 d2 : Json) (srv : Server) :
  let srv1 := fst (broadcastUpdate JSON_stringify e1 d1 srv) in
  let srv2 := fst (broadcastUpdate JSON_stringify e2 d2 srv1) in
  (∀ c, c ∈ wsClients srv →
        WebSocket.readyState (socket srv c) = OPEN →
        WebSocket.received (socket srv2 c)
        = (WebSocket.received (socket srv c)
             ++ [JSON_stringify e1 d1; JSON_stringify e2 d2])%list)
  ∧ (∀ c, WebSocket.readyState (socket srv1 c)
          = WebSocket.readyState (socket srv c))
  ∧ wsClients srv1 = wsClients srv
  ∧ (∀ c, c ∉ wsClients srv →
          WebSocket.readyState (socket srv c) = OPEN →
          WebSocket.received
            (socket (fst (broadcastUpdate JSON_stringify e2 d2
                            (on_connection c srv1))) c)
          = (WebSocket.received (socket srv c)
               ++ [JSON_stringify e2 d2])%list)
  ∧ (∀ c, WebSocket.readyState (socket srv c) = OPEN →
          WebSocket.received
            (socket (fst (broadcastUpdate JSON_stringify e1 d1
                            (on_connection c (on_connection c srv)))) c)
          = (WebSocket.received (socket srv c)
               ++ [JSON_stringify e1 d1])%list).
Proof.
  cbv zeta. split; [|split; [|split; [|split]]].
  - intros c Hc Ho.
    assert (H1 : socket (fst (broadcastUpdate JSON_stringify e1 d1 srv)) c
                 = WebSocket.mk OPEN
                     (WebSocket.received (socket srv c)
                        ++ [JSON_stringify e1 d1])).
    { rewrite broadcast_socket. by rewrite decide_True. }
    rewrite broadcast_socket, broadcast_wsClients, H1.
    rewrite decide_True by done. simpl. by rewrite <- app_assoc.
  - intros c. rewrite broadcast_socket. by case_decide as H; [destruct H|].
  - apply broadcast_wsClients.
  - intros c Hc Ho. rewrite broadcast_socket.
    assert (Hs : socket (on_connection c
                           (fst (broadcastUpdate JSON_stringify e1 d1 srv))) c
                 = socket srv c).
    { change (socket (fst (broadcastUpdate JSON_stringify e1 d1 srv)) c
              = socket srv c).
      rewrite broadcast_socket. rewrite decide_False; [done|]. tauto. }
    rewrite Hs. rewrite decide_True; [done|]. split; [|done].
    unfold on_connection. simpl. apply elem_of_union. left.
    by apply elem_of_singleton.
  - intros c Ho. rewrite broadcast_socket.
    change (socket (on_connection c (on_connection c srv)) c)
      with (socket srv c).
    rewrite decide_True; [done|]. split; [|done].
    unfold on_connection. simpl. apply elem_of_union. left.
    by apply elem_of_singleton.
Qed.

(** ** Status updates one after the other *)

Lemma handleStatusRequest_order JSON_stringify request srv id o :
  MemStorage.getOrder id (storage srv) = Some o →
  ∃ st, MemStorage.getOrder id
          (storage (handleStatusRequest JSON_stringify request srv))
        = Some (Order.set_status st o).
Proof.
  intros Ho. destruct request as [[a id'] value].
  unfold handleStatusRequest. simpl.
  assert (Hsame : Order.set_status (Order.status o) o = o) by (by destruct o).
  destruct a; [|exists (Order.status o); by rewrite Hsame].
  destruct (includes_status value) as [st|] eqn:Hst.
  - apply includes_status_Some in Hst as ->.
    destruct (MemStorage.getOrder id' (storage srv)) as [o'|] eqn:Ho'.
    + destruct (putOrderStatus_found JSON_stringify id' st srv o' Ho')
        as (so & ->).
      unfold MemStorage.getOrder. simpl.
      destruct (decide (id' = id)) as [->|Hne].
      * exists st. rewrite lookup_insert_eq. congruence.
      * exists (Order.status o). rewrite lookup_insert_ne by done.
        by rewrite Hsame.
    + rewrite (putOrderStatus_unknown JSON_stringify id' st srv Ho').
      exists (Order.status o). by rewrite Hsame.
  - rewrite (putOrderStatus_invalid JSON_stringify id' value srv Hst).
    exists (Order.status o). by rewrite Hsame.
Qed.

Lemma handleStatusRequest_frame JSON_stringify request srv :
  MemStorage.products
    (storage (handleStatusRequest JSON_stringify request srv))
  = MemStorage.products (storage srv)
  ∧ MemStorage.heap
      (storage (handleStatusRequest JSON_stringify request srv))
    = MemStorage.heap (storage srv)
  ∧ dom (MemStorage.orders
           (storage (handleStatusRequest JSON_stringify request srv)))
    = dom (MemStorage.orders (storage srv)).
Proof.
  destruct request as [[a id'] value].
  unfold handleStatusRequest. simpl.
  destruct a; [|done].
  destruct (includes_status value) as [st|] eqn:Hst.
  - apply includes_status_Some in Hst as ->.
    destruct (MemStorage.getOrder id' (storage srv)) as [o'|] eqn:Ho'.
    + destruct (putOrderStatus_found JSON_stringify id' st srv o' Ho')
        as (so & ->). simpl.
      repeat split. apply dom_insert_lookup_L. eauto.
    + by rewrite (putOrderStatus_unknown JSON_stringify id' st srv Ho').
  - by rewrite (putOrderStatus_invalid JSON_stringify id' value srv Hst).
Qed.

(** X15. After any sequence of requests to the status route, every order
    that was stored is still stored under its id with the same line items,
    total, customer and creation time, only its status may differ; no order
    appears or disappears, and the products with their stock are as before
    (no status change gives stock back). *)
Theorem status_requests_change_status_only
    (JSON_stringify : string → Json → string)
    (requests : list (bool * string * string)) (srv : Server) :
  let srv' :=
    fold_left (fun s request => handleStatusRequest JSON_stringify request s)
              requests srv in
  (∀ id o, MemStorage.getOrder id (storage srv) = Some o →
           ∃ st, MemStorage.getOrder id (storage srv')
                 = Some (Order.set_status st o))
  ∧ dom (MemStorage.orders (storage srv'))
    = dom (MemStorage.orders (storage srv))
  ∧ MemStorage.products (storage srv') = MemStorage.products (storage srv)
  ∧ MemStorage.heap (storage srv') = MemStorage.heap (storage srv).
Proof.
  cbv zeta. revert srv.
  induction requests as [|request requests IH]; intros srv; simpl.
  - repeat split. intros id o Ho. exists (Order.status o). by destruct o.
  - destruct (IH (handleStatusRequest JSON_stringify request srv))
      as (H1 & H2 & H3 & H4).
    destruct (handleStatusRequest_frame JSON_stringify request srv)
      as (F1 & F2 & F3).
    split; [|split; [|split]]; try congruence.
    intros id o Ho.
    destruct (handleStatusRequest_order JSON_stringify request srv id o Ho)
      as (st & Hst).
    destruct (H1 _ _ Hst) as (st' & Hst').
    exists st'. rewrite Hst'. by destruct o.
Qed.

(** ** Slugs *)

Lemma length_toLowerCase s :
  String.length (Js.toLowerCase s) = String.length s.
Proof. induction s as [|c s IH]; simpl; [done | by rewrite IH]. Qed.

Lemma length_replaceRuns b s :
  (String.length (Js.replaceRuns b s) ≤ String.length s)%nat.
Proof.
  revert b. induction s as [|c s IH]; intros b; simpl; [done|].
  pose proof (IH true). pose proof (IH false).
  destruct (Js.isWhiteSpace c); [destruct b|]; simpl; lia.
Qed.

Lemma length_stripNonSlug s :
  (String.length (Js.stripNonSlug s) ≤ String.length s)%nat.
Proof.
  induction s as [|c s IH]; simpl; [done|].
  destruct (Js.isSlugChar c); simpl; lia.
Qed.

(** X16. A slug has only characters of a-z, 0-9 and hyphen and is never
    longer than the name; the names that are their own slug are exactly
    the strings of such characters. *)
Theorem slug_is_url_safe (name : string) :
  Js.allSlugChars (slugify name) = true
  ∧ (String.length (slugify name) ≤ String.length name)%nat
  ∧ (slugify name = name ↔ Js.allSlugChars name = true).
Proof.
  split; [apply slugify_allSlugChars|]. split.
  - unfold slugify, Js.replaceWhiteSpace.
    pose proof (length_stripNonSlug
                  (Js.replaceRuns false (Js.toLowerCase name))).
    pose proof (length_replaceRuns false (Js.toLowerCase name)).
    rewrite length_toLowerCase in *. lia.
  - split; [|apply slugify_fixed].
    intros H. rewrite <- H. apply slugify_allSlugChars.
Qed.

(** ** From the product modal to the order *)

Lemma round_two53 : Js.round (2 ^ 53) = 2 ^ 53.
Proof. vm_compute. reflexivity. Qed.

Lemma round_two53_succ : Js.round (2 ^ 53 + 1) = 2 ^ 53.
Proof. vm_compute. reflexivity. Qed.

Lemma belowStock_spec stock q :
  ProductModal.belowStock stock q = true ↔ (inject_Z q < stock)%Q.
Proof.
  unfold ProductModal.belowStock. rewrite negb_true_iff. split.
  - intros H. apply Qnot_le_lt. intros Hle.
    apply Qle_bool_iff in Hle. congruence.
  - intros H. destruct (Qle_bool stock (inject_Z q)) eqn:E; [|done].
    apply Qle_bool_iff in E. exfalso. exact (Qlt_not_le _ _ H E).
Qed.

Lemma inject_Z_below stock (a b : Z) :
  a ≤ b → (inject_Z b < stock)%Q → (inject_Z a < stock)%Q.
Proof.
  intros Hab H. apply Qle_lt_trans with (inject_Z b); [|exact H].
  by rewrite <- Zle_Qle.
Qed.

Lemma click_bounds stock q c :
  1 ≤ q ≤ 2 ^ 53 ∧ (q = 1 ∨ (inject_Z (q - 1) < stock)%Q) →
  1 ≤ ProductModal.click stock q c ≤ 2 ^ 53
  ∧ (ProductModal.click stock q c = 1
     ∨ (inject_Z (ProductModal.click stock q c - 1) < stock)%Q).
Proof.
  intros [Hq Hs]. destruct c; simpl.
  - unfold ProductModal.handleQuantityDecrease.
    destruct (Z.ltb_spec 1 q) as [H1|H1]; [|done].
    unfold Js.sub. rewrite round_small by lia.
    split; [lia|]. right. destruct Hs as [->|Hs]; [lia|].
    apply inject_Z_below with (q - 1); [lia | exact Hs].
  - unfold ProductModal.handleQuantityIncrease.
    destruct (ProductModal.belowStock stock q) eqn:E; [|done].
    apply belowStock_spec in E. unfold Js.add.
    destruct (Z.lt_total (q + 1) (2 ^ 53)) as [Hlt|[Heq|Hgt]].
    + rewrite round_small by lia. split; [lia|]. right.
      apply inject_Z_below with q; [lia | exact E].
    + rewrite Heq, round_two53. split; [lia|]. right.
      apply inject_Z_below with q; [lia | exact E].
    + replace (q + 1) with (2 ^ 53 + 1) by lia.
      rewrite round_two53_succ. split; [lia|]. right.
      apply inject_Z_below with q; [lia | exact E].
Qed.

Lemma clicks_plus stock (n : nat) :
  Z.of_nat n + 1 ≤ 2 ^ 53 →
  n = 0%nat ∨ (inject_Z (Z.of_nat n) < stock)%Q →
  ProductModal.clicks stock (replicate n ProductModal.Plus) = Z.of_nat n + 1.
Proof.
  unfold ProductModal.clicks.
  induction n as [|n IH]; intros Hle Hs; [reflexivity|].
  destruct Hs as [Hs|Hs]; [done|].
  rewrite Nat2Z.inj_succ in *.
  replace (replicate (S n) ProductModal.Plus)
    with (replicate n ProductModal.Plus ++ [ProductModal.Plus])%list
    by (by rewrite <- replicate_cons_app).
  rewrite fold_left_app, IH; [|lia|].
  - simpl. unfold ProductModal.handleQuantityIncrease.
    replace (Z.of_nat n + 1) with (Z.succ (Z.of_nat n)) by lia.
    rewrite (proj2 (belowStock_spec _ _) Hs).
    unfold Js.add.
    destruct (Z.lt_total (Z.succ (Z.of_nat n) + 1) (2 ^ 53)) as [Hlt|[Heq|Hgt]];
      [by rewrite round_small by lia | | lia].
    rewrite Heq. apply round_two53.
  - destruct n as [|n]; [by left|]. right.
    apply inject_Z_below with (Z.succ (Z.of_nat (S n))); [lia | exact Hs].
Qed.

Lemma quantity_clicks_bound stock cs :
  1 ≤ ProductModal.clicks stock cs ≤ 2 ^ 53
  ∧ (ProductModal.clicks stock cs = 1
     ∨ (inject_Z (ProductModal.clicks stock cs - 1) < stock)%Q).
Proof.
  unfold ProductModal.clicks.
  assert (H : ∀ q0,
            1 ≤ q0 ≤ 2 ^ 53 ∧ (q0 = 1 ∨ (inject_Z (q0 - 1) < stock)%Q) →
            1 ≤ fold_left (ProductModal.click stock) cs q0 ≤ 2 ^ 53
            ∧ (fold_left (ProductModal.click stock) cs q0 = 1
               ∨ (inject_Z (fold_left (ProductModal.click stock) cs q0 - 1)
                  < stock)%Q)).
  { induction cs as [|c cs IH]; intros q0 H0; simpl; [done|].
    by apply IH, click_bounds. }
  apply H. split; [lia | by left].
Qed.

(** X17. The stock shown in the product modal is any number, whole or
    not, and the quantity starts at 1. The quantities that some sequence of
    clicks on the minus and plus buttons reaches are exactly the integers
    q from 1 on with q - 1 below the stock (1 alone when the stock is 1 or
    less), and at most 2^53, where adding 1 is rounded away. For a stock
    that is a whole number below 2^53 these are the integers from 1 to the
    stock; for a stock of 2.5 they are 1, 2 and 3. *)
Theorem quantity_clicks_stay_in_stock (stock : Q) (q : Z) :
  (∃ cs, ProductModal.clicks stock cs = q)
  ↔ 1 ≤ q ≤ 2 ^ 53 ∧ (q = 1 ∨ (inject_Z (q - 1) < stock)%Q).
Proof.
  split.
  - intros (cs & <-). apply quantity_clicks_bound.
  - intros [Hq Hs]. exists (replicate (Z.to_nat (q - 1)) ProductModal.Plus).
    rewrite clicks_plus.
    + lia.
    + lia.
    + destruct Hs as [->|Hs]; [by left|]. right.
      by rewrite Z2Nat.id by lia.
Qed.

Example quantity_clicks_fractional_stock :
  ProductModal.clicks (5 # 2)
    [ProductModal.Plus; ProductModal.Plus; ProductModal.Plus] = 3
  ∧ ProductModal.clicks (inject_Z 2)
      [ProductModal.Plus; ProductModal.Plus; ProductModal.Plus] = 2.
Proof. vm_compute. split; reflexivity. Qed.

(** X18. The checkout modal sends an order of one line, for the product
    it shows and the chosen quantity. When this product is what the store
    has under its id, with a stock that is a whole number of 1 or more,
    the quantity comes from clicks in the product modal, and the customer
    data has a name, an address and a phone of ten characters, the order
    handler accepts the order (201) and the stock of the product becomes
    the rounded difference of stock and quantity, which is not negative
    and is the exact difference for a stock of at most 2^53. *)
Theorem checkout_order_is_accepted
    (JSON_stringify : string → Json → string)
    (uuid : string) (now : Z) (srv : Server)
    (product : Product.t) (l : loc) (cs : list ProductModal.Click)
    (customerData : CheckoutModal.CustomerData) :
  MemStorage.wf (storage srv) →
  MemStorage.getProduct (Product.id product) (storage srv) = Some l →
  MemStorage.heap (storage srv) !! l = Some product →
  1 ≤ Product.stock product →
  (1 ≤ String.length (CheckoutModal.name customerData))%nat →
  (10 ≤ String.length (CheckoutModal.phone customerData))%nat →
  (1 ≤ String.length (CheckoutModal.address customerData))%nat →
  let quantity :=
    ProductModal.clicks (inject_Z (Product.stock product)) cs in
  ∃ body,
    CheckoutModal.handleSubmit (Some product) quantity customerData
    = Some body
    ∧ InsertOrder.products body
      = [OrderLine.mk (Product.id product) quantity]
    ∧ distinctProducts body
    ∧ insertOrderSchema body = true
    ∧ status (snd (postOrders JSON_stringify uuid now body srv)) = 201
    ∧ stockOf (storage (fst (postOrders JSON_stringify uuid now body srv)))
        (Product.id product)
      = Some (Js.sub (Product.stock product) quantity)
    ∧ 0 ≤ Js.sub (Product.stock product) quantity
    ∧ (Product.stock product ≤ 2 ^ 53 →
       Js.sub (Product.stock product) quantity
       = Product.stock product - quantity).
Proof.
  intros Hwf Hl Hp Hstock Hn Hph Ha quantity.
  assert (Hq : 1 ≤ quantity ≤ 2 ^ 53 ∧ quantity ≤ Product.stock product).
  { destruct (quantity_clicks_bound (inject_Z (Product.stock product)) cs)
      as [Hb Hs].
    fold quantity in Hb, Hs. split; [exact Hb|].
    destruct Hs as [->|Hs]; [exact Hstock|].
    rewrite <- Zlt_Qlt in Hs. lia. }
  destruct Hq as [Hq Hle].
  eexists. split; [reflexivity|]. split; [reflexivity|].
  set (body := InsertOrder.mk _ _).
  assert (Hv : insertOrderSchema body = true).
  { unfold insertOrderSchema, body.
    cbn [InsertOrder.products InsertOrder.customer Customer.name
         Customer.phone Customer.address forallb OrderLine.quantity].
    rewrite bool_decide_false by done.
    rewrite (proj2 (Z.ltb_lt 0 quantity)) by lia.
    rewrite (proj2 (Nat.leb_le _ _) Hn), (proj2 (Nat.leb_le _ _) Hph),
      (proj2 (Nat.leb_le _ _) Ha). reflexivity. }
  assert (Hin : inStock (storage srv) body).
  { constructor; [|constructor]. exists l. split; [exact Hl|].
    rewrite (deref_lookup _ _ _ Hp). simpl. exact Hle. }
  destruct (postOrders_accepted JSON_stringify uuid now body srv Hwf Hv Hin)
    as (so & Hr & _).
  split. { unfold distinctProducts. simpl. repeat constructor. by intros H%elem_of_nil. }
  split; [exact Hv|]. rewrite Hr. simpl. split; [done|].
  rewrite (stockOf_storeAfter _ _ _ _ _ Hwf Hin). unfold stockOf.
  unfold MemStorage.getProduct in Hl. rewrite Hl. simpl.
  rewrite (deref_lookup _ _ _ Hp). unfold stockAfterLines. simpl.
  rewrite bool_decide_true by done.
  split; [done|]. split.
  - apply round_nonneg. lia.
  - intros Hmax. apply round_small. lia.
Qed.

Lemma checkout_order_is_accepted_witness :
  let product := productOf Sample.store "p2" in
  let quantity :=
    ProductModal.clicks (inject_Z (Product.stock product))
      [ProductModal.Plus; ProductModal.Plus; ProductModal.Minus;
       ProductModal.Plus] in
  ∃ body,
    CheckoutModal.handleSubmit (Some product) quantity
      (CheckoutModal.mk "Asha" "9876543210" "" "12 Lake Road")
    = Some body
    ∧ status (snd (postOrders Sample.stringify "o1" 5 body Sample.server))
      = 201
    ∧ stockOf
        (storage (fst (postOrders Sample.stringify "o1" 5 body Sample.server)))
        "p2"
      = Some 7.
Proof.
  destruct (checkout_order_is_accepted Sample.stringify "o1" 5 Sample.server
              (productOf Sample.store "p2") 1%nat
              [ProductModal.Plus; ProductModal.Plus; ProductModal.Minus;
               ProductModal.Plus]
              (CheckoutModal.mk "Asha" "9876543210" "" "12 Lake Road"))
    as (body & Hb & _ & _ & _ & H201 & Hs & _).
  - apply wfb_wf. vm_compute. reflexivity.
  - vm_compute. reflexivity.
  - vm_compute. reflexivity.
  - vm_compute. discriminate.
  - vm_compute. lia.
  - vm_compute. lia.
  - vm_compute. lia.
  - exists body. split; [exact Hb|]. split; [exact H201|]. exact Hs.
Defined.

(** ** Users and admins *)

Lemma find_values_Some {A} (P : A → bool) (m : gmap string A) x :
  List.find P (map snd (map_to_list m)) = Some x →
  P x = true ∧ ∃ id, m !! id = Some x.
Proof.
  intros H. apply find_some in H as [Hin HP]. split; [done|].
  apply in_map_iff in Hin as ([id y] & <- & Hin).
  exists id. apply elem_of_map_to_list. by apply list_elem_of_In.
Qed.

Lemma find_values_None {A} (P : A → bool) (m : gmap string A) :
  List.find P (map snd (map_to_list m)) = None
  ↔ ∀ id x, m !! id = Some x → P x = false.
Proof.
  split.
  - intros H id x Hx. apply (find_none _ _ H).
    apply in_map_iff. exists (id, x). split; [done|].
    apply list_elem_of_In. by apply elem_of_map_to_list.
  - intros H. destruct (List.find P _) as [x|] eqn:Hf; [|done].
    apply find_values_Some in Hf as (HP & id & Hid).
    rewrite (H _ _ Hid) in HP. done.
Qed.

(** X19. [createUser] stores the new user under the new id, where
    [getUser] finds it, and a search by its username then finds a user of
    this username. A search by username returns only a stored user with
    the searched username, and it returns nothing exactly when no stored
    user has it. The username is not checked against the stored ones: the
    new user is stored also when another user has the same username. *)
Theorem createUser_then_find
    (uuid : string) (data : InsertUser.t) (s : AuthStore.t) :
  let r := AuthStore.createUser uuid data s in
  AuthStore.getUser uuid (fst r) = Some (snd r)
  ∧ snd r = User.mk uuid (InsertUser.username data) (InsertUser.password data)
  ∧ (∃ u, AuthStore.getUserByUsername (InsertUser.username data) (fst r)
          = Some u
          ∧ User.username u = InsertUser.username data)
  ∧ (∀ name u, AuthStore.getUserByUsername name s = Some u →
               User.username u = name
               ∧ ∃ id, AuthStore.getUser id s = Some u)
  ∧ (∀ name, AuthStore.getUserByUsername name s = None
             ↔ ∀ id u, AuthStore.getUser id s = Some u →
                       User.username u ≠ name)
  ∧ (∀ id, id ≠ uuid →
           AuthStore.getUser id (fst r) = AuthStore.getUser id s)
  ∧ AuthStore.admins (fst r) = AuthStore.admins s.
Proof.
  cbv zeta. unfold AuthStore.getUser, AuthStore.getUserByUsername. simpl.
  split; [apply lookup_insert_eq|]. split; [done|]. split.
  { destruct (List.find _ _) as [u|] eqn:Hf.
    - exists u. split; [done|].
      apply find_values_Some in Hf as [HP _].
      by apply bool_decide_eq_true in HP.
    - exfalso. rewrite find_values_None in Hf.
      specialize (Hf uuid _ (lookup_insert_eq _ _ _)). simpl in Hf.
      by rewrite bool_decide_true in Hf. }
  split.
  { intros name u Hf. apply find_values_Some in Hf as [HP Hid].
    split; [by apply bool_decide_eq_true in HP | done]. }
  split.
  { intros name. rewrite find_values_None. split.
    - intros H id u Hu. specialize (H id u Hu).
      by apply bool_decide_eq_false in H.
    - intros H id u Hu. apply bool_decide_eq_false. by apply (H id). }
  split; [|done]. intros id Hne. by apply lookup_insert_ne.
Qed.

Lemma getAdminByEmail_created uuid now data (s : AuthStore.t) :
  ∃ a, AuthStore.getAdminByEmail (InsertAdmin.email data)
         (fst (AuthStore.createAdmin uuid now data s)) = Some a
       ∧ Admin.email a = InsertAdmin.email data.
Proof.
  unfold AuthStore.getAdminByEmail. simpl.
  destruct (List.find _ _) as [a|] eqn:Hf.
  - exists a. split; [done|].
    apply find_values_Some in Hf as [HP _].
    by apply bool_decide_eq_true in HP.
  - exfalso. rewrite find_values_None in Hf.
    specialize (Hf uuid _ (lookup_insert_eq _ _ _)). simpl in Hf.
    by rewrite bool_decide_true in Hf.
Qed.

(** X20. After [initializeDefaultAdmin] an admin with the address
    admin@petshop.forest is found by [getAdminByEmail], and running it
    again, with any id, time and password hash, changes nothing. On a store
    without admins it creates exactly one: Forest Admin, with role admin,
    the given password hash and the time of the call. The users are never
    touched. *)
Theorem initializeDefaultAdmin_once
    (uuid uuid' : string) (now now' : Z) (hashed hashed' : string)
    (s : AuthStore.t) :
  let s1 := AuthStore.initializeDefaultAdmin uuid now hashed s in
  (∃ a, AuthStore.getAdminByEmail "admin@petshop.forest" s1 = Some a
        ∧ Admin.email a = "admin@petshop.forest")
  ∧ AuthStore.initializeDefaultAdmin uuid' now' hashed' s1 = s1
  ∧ AuthStore.users s1 = AuthStore.users s
  ∧ (AuthStore.admins s = ∅ →
     AuthStore.admins s1
     = {[uuid := Admin.mk uuid "Forest Admin" "admin@petshop.forest" hashed
                   "admin" now]}).
Proof.
  cbv zeta.
  assert (H1 : ∃ a, AuthStore.getAdminByEmail "admin@petshop.forest"
                      (AuthStore.initializeDefaultAdmin uuid now hashed s)
                    = Some a
                    ∧ Admin.email a = "admin@petshop.forest").
  { unfold AuthStore.initializeDefaultAdmin.
    destruct (AuthStore.getAdminByEmail "admin@petshop.forest" s) as [a|]
      eqn:Hf.
    - exists a. split; [done|].
      apply find_values_Some in Hf as [HP _].
      by apply bool_decide_eq_true in HP.
    - apply (getAdminByEmail_created uuid now
               (InsertAdmin.mk "Forest Admin" "admin@petshop.forest" hashed)). }
  split; [exact H1|]. split.
  { destruct H1 as (a & Ha & _).
    unfold AuthStore.initializeDefaultAdmin at 1. by rewrite Ha. }
  split.
  { unfold AuthStore.initializeDefaultAdmin.
    by destruct (AuthStore.getAdminByEmail _ s). }
  intros Hempty. unfold AuthStore.initializeDefaultAdmin,
    AuthStore.getAdminByEmail. rewrite Hempty, map_to_list_empty. simpl.
  by rewrite Hempty.
Qed.

(** ** A category through its routes *)

(** X21. For an authenticated admin and a body that passes the category
    schema, the creation route answers 201 with the new category (given
    name and description, the slug of the name, the new id and the time of
    the call), every registered open connection receives the
    category:created message with this category, and the public route for
    this id then answers 200 with the same category. Deleting the id
    afterwards is answered 204, and the public route then answers 404. *)
Theorem category_create_get_delete
    (JSON_stringify : string → Json → string)
    (uuid : string) (now : Z) (body : InsertCategory.t) (srv : Server) :
  insertCategorySchema body = true →
  let c :=
    Category.mk uuid (InsertCategory.name body)
      (slugify (InsertCategory.name body))
      (InsertCategory.description body) now in
  let created := postCategories JSON_stringify true uuid now body srv in
  let deleted := deleteCategories JSON_stringify true uuid (fst created) in
  snd created = mkResponse 201 (JCategory c)
  ∧ (∀ ws, ws ∈ wsClients srv →
           WebSocket.readyState (socket srv ws) = OPEN →
           socket (fst created) ws
           = WebSocket.mk OPEN
               (WebSocket.received (socket srv ws)
                  ++ [JSON_stringify "category:created" (JCategory c)]))
  ∧ getCategoryById uuid (fst created)
    = (fst created, mkResponse 200 (JCategory c))
  ∧ snd deleted = mkResponse 204 JNothing
  ∧ getCategoryById uuid (fst deleted)
    = (fst deleted, mkResponse 404 (JMessage "Category not found")).
Proof.
  intros Hv. cbv zeta.
  rewrite postCategories_run, Hv. cbv zeta. cbn [fst snd].
  set (c := Category.mk _ _ _ _ _).
  set (srv1 := fst (broadcastUpdate _ _ _ _)).
  assert (Hst : storage srv1
                = MemStorage.set_categories
                    (<[uuid := c]> (MemStorage.categories (storage srv)))
                    (storage srv)).
  { unfold srv1. by rewrite broadcastUpdate_storage. }
  assert (Hget : MemStorage.getCategory uuid (storage srv1) = Some c).
  { rewrite Hst. apply lookup_insert_eq. }
  split; [done|]. split.
  { intros ws Hws Ho. unfold srv1. rewrite broadcast_socket.
    by rewrite decide_True. }
  split.
  { unfold getCategoryById, try_catch, bind, read, ret. by rewrite Hget. }
  rewrite deleteCategories_run, Hget. cbn [fst snd]. split; [done|].
  unfold getCategoryById, try_catch, bind, read, ret.
  rewrite broadcastUpdate_storage. simpl.
  unfold MemStorage.getCategory. simpl. by rewrite lookup_delete_eq.
Qed.

Lemma category_create_get_delete_witness :
  let created :=
    postCategories Sample.stringify true "c2" 5
      (InsertCategory.mk "Big Cats" "Lions and tigers") Sample.server in
  snd created
  = mkResponse 201
      (JCategory (Category.mk "c2" "Big Cats" "big-cats" "Lions and tigers" 5))
  ∧ WebSocket.received (socket (fst created) 7%nat) = ["category:created"].
Proof.
  destruct (category_create_get_delete Sample.stringify "c2" 5
              (InsertCategory.mk "Big Cats" "Lions and tigers") Sample.server)
    as (H1 & H2 & _).
  - vm_compute. reflexivity.
  - split; [exact H1|].
    rewrite (H2 7%nat); [reflexivity| |vm_compute; reflexivity].
    apply elem_of_union. left. by apply elem_of_singleton.
Defined.
